(** * giodashboard: the admin phone-number panel and the beat uploader

    A shallow embedding of the event handlers of [Settings.tsx]
    (collection [adminPhoneGio]) and of the beat uploader [Library]
    (collection [beats]), with the document store, the blob storage and
    the JavaScript runtime they call modelled as explicit state.

    Conventions.
    - A JavaScript string is its sequence of UTF-16 code units.
    - A Firestore collection is a finite map from document id to document.
    - A handler is an [async] function whose body is one [try]/[catch]:
      it is modelled in a state-and-exception monad; what it reads from
      its closure (the component state of the render that created it) is
      an argument, what it changes (the store, the console, the pending
      state updates) is the threaded state.
    - Whether the backend accepts a request is decided by an oracle of the
      environment, so that every pattern of failing writes can be run. *)

From stdpp Require Import gmap list fin_maps strings.
From Stdlib Require Import ZArith NArith DecimalString.

(** ** JavaScript strings *)

Module Js.

Local Open Scope N_scope.

(** UTF-16 code units. *)
Abbreviation JsString := (list N).

(** A string literal of the source, ASCII only. *)
Definition lit (s : string) : JsString :=
  map Ascii.N_of_ascii (String.list_ascii_of_string s).

(** ECMAScript WhiteSpace and LineTerminator code points, the ones
    [String.prototype.trim] strips. All lie in the basic plane. *)
Definition isWhiteSpace (c : N) : bool :=
  (c =? 0x0009) || (c =? 0x000A) || (c =? 0x000B) || (c =? 0x000C)
  || (c =? 0x000D) || (c =? 0x0020) || (c =? 0x00A0) || (c =? 0x1680)
  || ((0x2000 <=? c) && (c <=? 0x200A))
  || (c =? 0x2028) || (c =? 0x2029) || (c =? 0x202F) || (c =? 0x205F)
  || (c =? 0x3000) || (c =? 0xFEFF).

Fixpoint trimStart (s : JsString) : JsString :=
  match s with
  | [] => []
  | c :: s' => if isWhiteSpace c then trimStart s' else s
  end.

Definition trimEnd (s : JsString) : JsString := rev (trimStart (rev s)).

(** [s.trim()] *)
Definition trim (s : JsString) : JsString := trimEnd (trimStart s).

(** Truthiness of a string: [!s] holds exactly for the empty string. *)
Definition truthy (s : JsString) : bool :=
  match s with [] => false | _ :: _ => true end.

(** Truthiness of [string | undefined] and of [T | null] for an object. *)
Definition truthyOpt (o : option JsString) : bool :=
  match o with Some s => truthy s | None => false end.

(** The string consists of white space only (the empty string included). *)
Definition blank (s : JsString) : bool := forallb isWhiteSpace s.

(** Decimal digits of a non-negative integer, as [String(n)] prints it. *)
Definition decimal (n : N) : JsString :=
  lit (NilEmpty.string_of_uint (N.to_uint n)).

End Js.

Import Js.

(** ** Handlers: state and exceptions *)

Inductive Result (E A : Type) : Type :=
| Ok (a : A)
| Throw (e : E).
Arguments Ok {E A} a.
Arguments Throw {E A} e.

Definition M (S E A : Type) : Type := S → Result E A * S.

Definition ret {S E A} (a : A) : M S E A := λ s, (Ok a, s).

Definition bind {S E A B} (m : M S E A) (k : A → M S E B) : M S E B :=
  λ s, match m s with
       | (Ok a, s') => k a s'
       | (Throw e, s') => (Throw e, s')
       end.

Definition throw {S E A} (e : E) : M S E A := λ s, (Throw e, s).

(** [try { body } catch (error) { handler error }] *)
Definition tryCatch {S E A} (body : M S E A) (handler : E → M S E A)
  : M S E A :=
  λ s, match body s with
       | (Ok a, s') => (Ok a, s')
       | (Throw e, s') => handler e s'
       end.

Definition modify {S E} (f : S → S) : M S E unit := λ s, (Ok tt, f s).

Notation "x <~ m ; k" := (bind m (λ x : _, k))
  (at level 20, m at level 100, k at level 200, only parsing).

(** [await Promise.all(ps)] where every promise of [ps] has already been
    started: all of them run to their end whether or not another one
    rejects, and the await throws when at least one rejected. The error
    thrown is the one of the promise that rejected first in time; the
    model takes the first in array order, which only decides the object
    that reaches the [catch]. *)
Fixpoint promiseAll {S E} (ps : list (M S E unit)) : M S E unit :=
  match ps with
  | [] => ret tt
  | p :: ps' =>
      λ s, match p s with
           | (Ok _, s') => promiseAll ps' s'
           | (Throw e, s') => (Throw e, snd (promiseAll ps' s'))
           end
  end.

(** ** Settings.tsx: the admin phone numbers *)

Module Settings.

(** A document of the collection [adminPhoneGio]: what [addDoc] stores
    and [doc.data()] returns. *)
Module Doc.
Record t : Type := mk { number : JsString; isActive : bool }.
End Doc.

(** [interface PhoneNumber] *)
Record PhoneNumber : Type := mkPhoneNumber {
  id : JsString;
  number : JsString;
  isActive : bool;
}.

(** The state [deleteDialog]; [phoneId] is [string | null]. *)
Record DeleteDialog : Type := mkDeleteDialog {
  isOpen : bool;
  phoneId : option JsString;
  phoneNumber : JsString;
}.

(** The component state the handlers read and set. *)
Record Component : Type := mkComponent {
  phoneNumbers : list PhoneNumber;
  newPhoneNumber : JsString;
  deleteDialog : DeleteDialog;
}.

(** The requests the component sends to the document store. *)
Inductive Write : Type :=
| AddDoc (data : Doc.t)
| UpdateDoc (docId : JsString) (active : bool)
| DeleteDoc (docId : JsString).

Inductive Error : Type :=
| NotFound (docId : JsString)
| Rejected (w : Write).

(** What lies outside the component: the collection, the requests sent
    to it so far (oldest first), and the lines of [console.error]. *)
Record World : Type := mkWorld {
  db : gmap JsString Doc.t;
  issued : list Write;
  console : list (JsString * Error);
}.

Record Sys : Type := mkSys { comp : Component; world : World }.

(** The backend: which requests it accepts, and the id [addDoc] gives a
    new document. *)
Record Backend : Type := mkBackend {
  accepts : Write → bool;
  autoId : gmap JsString Doc.t → JsString;
}.

Definition setDb (f : gmap JsString Doc.t → gmap JsString Doc.t) (s : Sys) : Sys :=
  mkSys (comp s) (mkWorld (f (db (world s))) (issued (world s)) (console (world s))).

Definition issue (w : Write) (s : Sys) : Sys :=
  mkSys (comp s) (mkWorld (db (world s)) (issued (world s) ++ [w]) (console (world s))).

Definition setActive (b : bool) (d : Doc.t) : Doc.t := Doc.mk (Doc.number d) b.

(** *** The document store *)

(** [addDoc(collection(db, 'adminPhoneGio'), data)]: sets the document
    at a generated id. *)
Definition addDoc (be : Backend) (data : Doc.t) : M Sys Error JsString :=
  λ s, let s1 := issue (AddDoc data) s in
       if accepts be (AddDoc data)
       then let k := autoId be (db (world s)) in (Ok k, setDb (insert k data) s1)
       else (Throw (Rejected (AddDoc data)), s1).

(** [updateDoc(doc(db, 'adminPhoneGio', k), { isActive: b })]: changes
    the one field of an existing document and fails on a missing one. *)
Definition updateDoc (be : Backend) (k : JsString) (b : bool) : M Sys Error unit :=
  λ s, let s1 := issue (UpdateDoc k b) s in
       match db (world s) !! k with
       | None => (Throw (NotFound k), s1)
       | Some d =>
           if accepts be (UpdateDoc k b)
           then (Ok tt, setDb (insert k (setActive b d)) s1)
           else (Throw (Rejected (UpdateDoc k b)), s1)
       end.

(** [deleteDoc(doc(db, 'adminPhoneGio', k))]: succeeds on a missing
    document too. *)
Definition deleteDoc (be : Backend) (k : JsString) : M Sys Error unit :=
  λ s, let s1 := issue (DeleteDoc k) s in
       if accepts be (DeleteDoc k)
       then (Ok tt, setDb (delete k) s1)
       else (Throw (Rejected (DeleteDoc k)), s1).

Definition consoleError (msg : string) (e : Error) : M Sys Error unit :=
  modify (λ s, mkSys (comp s)
    (mkWorld (db (world s)) (issued (world s)) (console (world s) ++ [(lit msg, e)]))).

(** *** The state setters *)

Definition setPhoneNumbers (l : list PhoneNumber) : M Sys Error unit :=
  modify (λ s, mkSys
    (mkComponent l (newPhoneNumber (comp s)) (deleteDialog (comp s))) (world s)).

Definition setNewPhoneNumber (v : JsString) : M Sys Error unit :=
  modify (λ s, mkSys
    (mkComponent (phoneNumbers (comp s)) v (deleteDialog (comp s))) (world s)).

Definition setDeleteDialog (d : DeleteDialog) : M Sys Error unit :=
  modify (λ s, mkSys
    (mkComponent (phoneNumbers (comp s)) (newPhoneNumber (comp s)) d) (world s)).

(** *** The snapshot listener *)

(** [snapshot.docs.map(doc => ({ id: doc.id, ...doc.data() }))] *)
Definition snapshot (m : gmap JsString Doc.t) : list PhoneNumber :=
  map (λ kd, mkPhoneNumber kd.1 (Doc.number kd.2) (Doc.isActive kd.2))
      (map_to_list m).

(** The callback of [onSnapshot], called with the whole collection. *)
Definition onSnapshot : M Sys Error unit :=
  λ s, setPhoneNumbers (snapshot (db (world s))) s.

(** *** The handlers; [c] is the state of the render they close over *)

Definition handleAddPhoneNumber (be : Backend) (c : Component) : M Sys Error unit :=
  if negb (truthy (trim (newPhoneNumber c))) then ret tt
  else
    tryCatch
      (_ <~ addDoc be (Doc.mk (trim (newPhoneNumber c)) false) ;
       setNewPhoneNumber [])
      (λ error, consoleError "Error adding phone number:" error).

(** The function mapped over [phoneNumbers]: the promise it starts for
    one phone. *)
Definition update (be : Backend) (phoneId : JsString) (phone : PhoneNumber)
  : M Sys Error unit :=
  if bool_decide (id phone = phoneId) then updateDoc be (id phone) true
  else if isActive phone then updateDoc be (id phone) false
  else ret tt.

(** The array [batchUpdates]: one started promise for each phone. *)
Definition batchUpdates (be : Backend) (c : Component) (phoneId : JsString)
  : list (M Sys Error unit) :=
  map (update be phoneId) (phoneNumbers c).

Definition handleToggleActive (be : Backend) (c : Component) (phoneId : JsString)
  : M Sys Error unit :=
  tryCatch
    (promiseAll (batchUpdates be c phoneId))
    (λ error, consoleError "Error updating phone number status:" error).

Definition handleOpenDeleteDialog (pid pnumber : JsString) : M Sys Error unit :=
  setDeleteDialog (mkDeleteDialog true (Some pid) pnumber).

Definition handleCloseDeleteDialog : M Sys Error unit :=
  setDeleteDialog (mkDeleteDialog false None []).

Definition handleDeletePhoneNumber (be : Backend) (c : Component) : M Sys Error unit :=
  match phoneId (deleteDialog c) with
  | None | Some [] => ret tt
  | Some pid =>
      tryCatch
        (_ <~ deleteDoc be pid ; handleCloseDeleteDialog)
        (λ error, consoleError "Error deleting phone number:" error)
  end.

(** *** Running the panel *)

(** A user event runs the handler of the current render to its end;
    the listener then delivers the collection as it is now. *)
Definition dispatch (h : Component → M Sys Error unit) (s : Sys) : Sys :=
  snd (onSnapshot (snd (h (comp s) s))).

(** Clicking the toggle of a phone: [handleToggleActive(phone.id)]. *)
Definition activate (be : Backend) (targetId : JsString) : Sys → Sys :=
  dispatch (λ c, handleToggleActive be c targetId).

(** Typing [value] into the input, then clicking Add. *)
Definition add (be : Backend) (value : JsString) (s : Sys) : Sys :=
  dispatch (handleAddPhoneNumber be) (snd (setNewPhoneNumber value s)).

(** Clicking the bin of phone [pid] shown with number [pnumber], then
    Delete in the dialog. *)
Definition remove (be : Backend) (pid pnumber : JsString) (s : Sys) : Sys :=
  dispatch (handleDeletePhoneNumber be)
           (snd (handleOpenDeleteDialog pid pnumber s)).

(** The panel shows the collection as it is. *)
Definition synced (s : Sys) : Prop :=
  phoneNumbers (comp s) = snapshot (db (world s)).

(** The handler that ran between [s] and [s'] logged an error. *)
Definition reported (s s' : Sys) : bool :=
  (length (console (world s)) <? length (console (world s')))%nat.

(** The phones of the collection that are active. *)
Definition actives (m : gmap JsString Doc.t) : list PhoneNumber :=
  filter (λ p, isActive p = true) (snapshot m).

(** A backend that accepts every request. *)
Definition reliable (next : gmap JsString Doc.t → JsString) : Backend :=
  mkBackend (λ _, true) next.

(** The panel as mounted on a collection, before any event. *)
Definition mount (m : gmap JsString Doc.t) : Sys :=
  mkSys (mkComponent (snapshot m) [] (mkDeleteDialog false None []))
        (mkWorld m [] []).

End Settings.

(** ** The beat uploader ([Library]) *)

(** A [number]. The uploader only stores and copies numbers; the one it
    writes itself is the literal [0]. A finite value is
    [mantissa * 2 ^ exponent]. *)
Inductive JsNumber : Type :=
| NaN
| Infinity (negative : bool)
| Finite (mantissa exponent : Z).

Definition zero : JsNumber := Finite 0 0.

Module Library.

(** [interface LicenseType] *)
Module License.
Record t : Type := mk {
  type : JsString;
  price : JsNumber;
  rights : list JsString;
}.
End License.

(** The fields [createdAt] and [updatedAt] (of type [any]): the
    sentinel of [serverTimestamp()], or a time already resolved. *)
Inductive Timestamp : Type :=
| ServerTimestamp
| At (millis : N).

(** [Partial<Beat>]: every field of [interface Beat], each optional. *)
Record PartialBeat : Type := mkBeat {
  title : option JsString;
  producerId : option JsString;
  producerName : option JsString;
  audioUrl : option JsString;
  previewUrl : option JsString;
  duration : option JsNumber;
  genre : option JsString;
  tags : option (list JsString);
  bpm : option JsNumber;
  price : option JsNumber;
  licenseTypes : option (gmap JsString License.t);
  plays : option JsNumber;
  purchases : option JsNumber;
  likes : option JsNumber;
  createdAt : option Timestamp;
  updatedAt : option Timestamp;
  imageUrl : option JsString;
  isActive : option bool;
  isFeatured : option bool;
  searchKeywords : option (list JsString);
}.

(** A document of the collection [beats]: the fields it was created
    with and the field [id] the second write adds. *)
Record BeatDoc : Type := mkBeatDoc {
  beat : PartialBeat;
  id : option JsString;
}.

Record File : Type := mkFile { name : JsString; bytes : list N }.

Record User : Type := mkUser { uid : JsString }.

(** The state of the form. *)
Record Component : Type := mkComponent {
  newBeat : PartialBeat;
  audioFile : option File;
  previewFile : option File;
  imageFile : option File;
  loading : bool;
}.

(** The requests the uploader sends to the blob storage and to the
    document store. *)
Inductive Request : Type :=
| UploadBytes (path : JsString) (file : File)
| GetDownloadURL (path : JsString)
| AddDoc (data : PartialBeat)
| UpdateDoc (docId : JsString) (newId : JsString)
| DeleteDoc (docId : JsString).

Inductive Error : Type :=
| Rejected (r : Request)
| NotFound (docId : JsString)
| TypeError.

(** What lies outside the component: the signed-in user
    ([auth.currentUser]), the collection, the stored blobs, the requests
    sent so far (oldest first), the [alert] boxes shown, the lines of
    [console.error], and how often [Date.now()] was called. *)
Record World : Type := mkWorld {
  currentUser : option User;
  beats : gmap JsString BeatDoc;
  storage : gmap JsString File;
  requests : list Request;
  alerts : list JsString;
  console : list (JsString * Error);
  ticks : nat;
}.

Record Sys : Type := mkSys { comp : Component; world : World }.

(** The services and the runtime: which requests are accepted, the id
    [addDoc] gives a new document, the public URL of a path, the clock,
    and [String.prototype.toLowerCase]. *)
Record Env : Type := mkEnv {
  accepts : Request → bool;
  autoId : gmap JsString BeatDoc → JsString;
  downloadURL : JsString → JsString;
  now : nat → N;
  toLowerCase : JsString → JsString;
}.

Definition setWorld (f : World → World) (s : Sys) : Sys :=
  mkSys (comp s) (f (world s)).

Definition setComp (f : Component → Component) (s : Sys) : Sys :=
  mkSys (f (comp s)) (world s).

Definition issue (r : Request) : Sys → Sys :=
  setWorld (λ w, mkWorld (currentUser w) (beats w) (storage w)
                   (requests w ++ [r]) (alerts w) (console w) (ticks w)).

Definition setBeats (f : gmap JsString BeatDoc → gmap JsString BeatDoc) : Sys → Sys :=
  setWorld (λ w, mkWorld (currentUser w) (f (beats w)) (storage w)
                   (requests w) (alerts w) (console w) (ticks w)).

Definition setStorage (f : gmap JsString File → gmap JsString File) : Sys → Sys :=
  setWorld (λ w, mkWorld (currentUser w) (beats w) (f (storage w))
                   (requests w) (alerts w) (console w) (ticks w)).

(** *** The services *)

(** Sends [r]; the effect [apply] takes place when it is accepted. *)
Definition request {A} (env : Env) (r : Request) (answer : Sys → A)
    (apply : Sys → Sys) : M Sys Error A :=
  λ s, let s1 := issue r s in
       if accepts env r then (Ok (answer s), apply s1)
       else (Throw (Rejected r), s1).

Definition uploadBytes (env : Env) (path : JsString) (file : File) : M Sys Error unit :=
  request env (UploadBytes path file) (λ _, tt) (setStorage (insert path file)).

Definition getDownloadURL (env : Env) (path : JsString) : M Sys Error JsString :=
  request env (GetDownloadURL path) (λ _, downloadURL env path) (λ s, s).

(** [addDoc(collection(db, "beats"), data)]; the answer is the id of
    the reference. *)
Definition addDoc (env : Env) (data : PartialBeat) : M Sys Error JsString :=
  λ s, let k := autoId env (beats (world s)) in
       request env (AddDoc data) (λ _, k)
         (setBeats (insert k (mkBeatDoc data None))) s.

(** [updateDoc(docRef, { id: newId })] *)
Definition updateDoc (env : Env) (k newId : JsString) : M Sys Error unit :=
  λ s, match beats (world s) !! k with
       | None => (Throw (NotFound k), issue (UpdateDoc k newId) s)
       | Some d =>
           request env (UpdateDoc k newId) (λ _, tt)
             (setBeats (insert k (mkBeatDoc (beat d) (Some newId)))) s
       end.

Definition deleteDoc (env : Env) (k : JsString) : M Sys Error unit :=
  request env (DeleteDoc k) (λ _, tt) (setBeats (delete k)).

(** *** The runtime *)

Definition alert (msg : string) : M Sys Error unit :=
  modify (setWorld (λ w, mkWorld (currentUser w) (beats w) (storage w)
                           (requests w) (alerts w ++ [lit msg]) (console w) (ticks w))).

Definition consoleError (msg : string) (e : Error) : M Sys Error unit :=
  modify (setWorld (λ w, mkWorld (currentUser w) (beats w) (storage w)
                           (requests w) (alerts w) (console w ++ [(lit msg, e)]) (ticks w))).

(** [Date.now()] *)
Definition dateNow (env : Env) : M Sys Error N :=
  λ s, (Ok (now env (ticks (world s))),
        setWorld (λ w, mkWorld (currentUser w) (beats w) (storage w)
                         (requests w) (alerts w) (console w) (S (ticks w))) s).

(** [auth.currentUser.uid]: a [TypeError] when nobody is signed in. *)
Definition currentUid : M Sys Error JsString :=
  λ s, match currentUser (world s) with
       | Some u => (Ok (uid u), s)
       | None => (Throw TypeError, s)
       end.

(** *** The state setters *)

Definition setNewBeat (b : PartialBeat) : M Sys Error unit :=
  modify (setComp (λ c, mkComponent b (audioFile c) (previewFile c) (imageFile c) (loading c))).

Definition setAudioFile (f : option File) : M Sys Error unit :=
  modify (setComp (λ c, mkComponent (newBeat c) f (previewFile c) (imageFile c) (loading c))).

Definition setPreviewFile (f : option File) : M Sys Error unit :=
  modify (setComp (λ c, mkComponent (newBeat c) (audioFile c) f (imageFile c) (loading c))).

Definition setImageFile (f : option File) : M Sys Error unit :=
  modify (setComp (λ c, mkComponent (newBeat c) (audioFile c) (previewFile c) f (loading c))).

Definition setLoading (b : bool) : M Sys Error unit :=
  modify (setComp (λ c, mkComponent (newBeat c) (audioFile c) (previewFile c) (imageFile c) b)).

(** The value [newBeat] starts with and is reset to. *)
Definition emptyBeat : PartialBeat :=
  {| title := Some []; producerId := None; producerName := Some [];
     audioUrl := None; previewUrl := None; duration := None;
     genre := Some []; tags := Some []; bpm := Some zero; price := Some zero;
     licenseTypes := Some {[ lit "basic" := License.mk (lit "Basic") zero [] ]};
     plays := None; purchases := None; likes := None;
     createdAt := None; updatedAt := None; imageUrl := None;
     isActive := Some true; isFeatured := Some false;
     searchKeywords := Some [] |}.

(** *** The handlers *)

Definition uploadFile (env : Env) (file : File) (path : JsString) : M Sys Error JsString :=
  _ <~ uploadBytes env path file ;
  getDownloadURL env path.

(** The template [`beats/${auth.currentUser.uid}/${Date.now()}${suffix}`] *)
Definition beatPath (env : Env) (suffix : string) : M Sys Error JsString :=
  u <~ currentUid ;
  t <~ dateNow env ;
  ret (lit "beats/" ++ u ++ lit "/" ++ decimal t ++ lit suffix).

(** [l.filter(Boolean)] on an array of [string | undefined] *)
Definition filterBoolean (l : list (option JsString)) : list JsString :=
  omap (λ o, if truthyOpt o then o else None) l.

(** The array [searchKeywords] of [handleAddBeat]. *)
Definition keywords (env : Env) (b : PartialBeat) : list JsString :=
  filterBoolean
    ([toLowerCase env <$> title b;
      toLowerCase env <$> genre b;
      toLowerCase env <$> producerName b]
     ++ match tags b with
        | Some ts => map (λ tag, Some (toLowerCase env tag)) ts
        | None => []
        end).

(** The object literal given to [addDoc]: [newBeat] spread, then the
    fields written after it. *)
Definition beatDocument (b : PartialBeat) (user audio preview image : JsString)
    (kws : list JsString) : PartialBeat :=
  {| title := title b;
     producerId := Some user;
     producerName := producerName b;
     audioUrl := Some audio;
     previewUrl := Some preview;
     duration := Some zero;
     genre := genre b;
     tags := tags b;
     bpm := bpm b;
     price := price b;
     licenseTypes := licenseTypes b;
     plays := Some zero;
     purchases := Some zero;
     likes := Some zero;
     createdAt := Some ServerTimestamp;
     updatedAt := Some ServerTimestamp;
     imageUrl := Some image;
     isActive := isActive b;
     isFeatured := isFeatured b;
     searchKeywords := Some kws |}.

(** The body of the [try] of [handleAddBeat], once [audioFile] is known
    to be a file. *)
Definition addBeatBody (env : Env) (c : Component) (audio : File) : M Sys Error unit :=
  audioPath <~ beatPath env "-full.mp3" ;
  audioUrl <~ uploadFile env audio audioPath ;
  previewUrl <~ match previewFile c with
                | Some f => path <~ beatPath env "-preview.mp3" ;
                            uploadFile env f path
                | None => ret audioUrl
                end ;
  imageUrl <~ match imageFile c with
              | Some f => path <~ beatPath env "-cover.jpg" ;
                          uploadFile env f path
              | None => ret []
              end ;
  let searchKeywords := keywords env (newBeat c) in
  user <~ currentUid ;
  docRef <~ addDoc env (beatDocument (newBeat c) user audioUrl previewUrl
                          imageUrl searchKeywords) ;
  _ <~ updateDoc env docRef docRef ;
  _ <~ setNewBeat emptyBeat ;
  _ <~ setAudioFile None ;
  _ <~ setPreviewFile None ;
  setImageFile None.

Definition handleAddBeat (env : Env) (c : Component) : M Sys Error unit :=
  λ s,
    match currentUser (world s) with
    | None => alert "Please sign in to upload beats" s
    | Some _ =>
        match audioFile c with
        | Some audio =>
            if truthyOpt (title (newBeat c)) && truthyOpt (genre (newBeat c))
               && truthyOpt (producerName (newBeat c))
            then
              (_ <~ setLoading true ;
               _ <~ tryCatch (addBeatBody env c audio)
                      (λ error, _ <~ consoleError "Error adding beat: " error ;
                                alert "Failed to add beat") ;
               setLoading false) s
            else alert "Please fill in all required fields and upload an audio file" s
        | None => alert "Please fill in all required fields and upload an audio file" s
        end
    end.

(** [confirmed] is the answer to the [confirm] box. *)
Definition handleDeleteBeat (env : Env) (confirmed : bool) (k : JsString) : M Sys Error unit :=
  if negb confirmed then ret tt
  else tryCatch (deleteDoc env k)
         (λ error, _ <~ consoleError "Error deleting beat: " error ;
                   alert "Failed to delete beat").

End Library.

(** ** Settings.tsx: the preference toggles *)

Module Preferences.

(** The value of a property of the object [settings]. *)
Inductive Value : Type :=
| VBool (b : bool)
| VString (s : JsString).

(** [keyof Pick<SettingsType, 'notifications' | 'darkMode'>] *)
Inductive Toggle : Type := notifications | darkMode.

Definition key (setting : Toggle) : JsString :=
  match setting with
  | notifications => lit "notifications"
  | darkMode => lit "darkMode"
  end.

(** The object [settings] starts as. *)
Definition initial : gmap JsString Value :=
  <[lit "notifications" := VBool true]>
    (<[lit "darkMode" := VBool false]>
       (<[lit "language" := VString (lit "en")]>
          (<[lit "currency" := VString (lit "RWF")]> ∅))).

(** [!x] for the value of a property, [undefined] when it is absent. *)
Definition not (x : option Value) : bool :=
  match x with
  | Some (VBool b) => negb b
  | Some (VString v) => negb (truthy v)
  | None => true
  end.

(** The updater [handleToggle(setting)] gives to [setSettings]. *)
Definition handleToggle (setting : Toggle) (prevSettings : gmap JsString Value)
  : gmap JsString Value :=
  <[key setting := VBool (not (prevSettings !! key setting))]> prevSettings.

(** The updater [handleChange(e)] gives to [setSettings], for
    [e.target = { name, value }]. *)
Definition handleChange (name value : JsString) (prevSettings : gmap JsString Value)
  : gmap JsString Value :=
  <[name := VString value]> prevSettings.

End Preferences.

(** ** The beat uploader: the fields of the form *)

Module Form.

Import Library.

(** [s.split(",")]: the pieces between the commas, one more than there
    are commas. *)
Fixpoint split (s : JsString) : list JsString :=
  match s with
  | [] => [[]]
  | c :: s' =>
      if (c =? 44)%N then [] :: split s'
      else match split s' with
           | piece :: pieces => (c :: piece) :: pieces
           | [] => [[c]]
           end
  end.

(** [pieces.join(",")] *)
Definition join (pieces : list JsString) : JsString :=
  match pieces with
  | [] => []
  | piece :: rest => piece ++ flat_map (λ q, 44%N :: q) rest
  end.

(** [{ ...b, tags: ts }] *)
Definition withTags (b : PartialBeat) (ts : list JsString) : PartialBeat :=
  {| title := title b; producerId := producerId b;
     producerName := producerName b; audioUrl := audioUrl b;
     previewUrl := previewUrl b; duration := duration b; genre := genre b;
     tags := Some ts; bpm := bpm b; price := price b;
     licenseTypes := licenseTypes b; plays := plays b;
     purchases := purchases b; likes := likes b; createdAt := createdAt b;
     updatedAt := updatedAt b; imageUrl := imageUrl b;
     isActive := isActive b; isFeatured := isFeatured b;
     searchKeywords := searchKeywords b |}.

(** The [onChange] of the tags input, for [e.target.value = value]; [c]
    is the state of the render it closes over. *)
Definition onTagsChange (c : Component) (value : JsString) : M Sys Error unit :=
  setNewBeat (withTags (newBeat c) (map trim (split value))).

(** The [onChange] of the three file inputs, for the first file chosen
    ([e.target.files?.[0] || null]). *)
Definition onAudioChange (file : option File) : M Sys Error unit := setAudioFile file.
Definition onPreviewChange (file : option File) : M Sys Error unit := setPreviewFile file.
Definition onImageChange (file : option File) : M Sys Error unit := setImageFile file.

(** A user event on the form: the handler of the current render runs to
    its end. *)
Definition dispatch (h : Component → M Sys Error unit) (s : Sys) : Sys :=
  snd (h (comp s) s).

(** The path [handleAddBeat] builds for user [u] on the [n]-th reading
    of the clock. *)
Definition pathOf (env : Env) (u : User) (n : nat) (suffix : string) : JsString :=
  lit "beats/" ++ uid u ++ lit "/" ++ decimal (now env n) ++ lit suffix.

(** The form holds what [handleAddBeat] requires. *)
Definition ready (c : Component) : Prop :=
  is_Some (audioFile c)
  ∧ truthyOpt (title (newBeat c)) = true
  ∧ truthyOpt (genre (newBeat c)) = true
  ∧ truthyOpt (producerName (newBeat c)) = true.

End Form.

(** * Notions used in the statements *)

Section SettingsNotions.

Import Settings.

Implicit Types (m : gmap JsString Doc.t) (s : Sys) (be : Backend)
  (k t : JsString) (d : Doc.t) (p : PhoneNumber).

(** The phone the panel shows for document [d] stored at [k]. *)
Definition shown k d : PhoneNumber :=
  mkPhoneNumber k (Doc.number d) (Doc.isActive d).

(** The promise was fulfilled. *)
Definition isOk {E A} (r : Result E A) : bool :=
  match r with Ok _ => true | Throw _ => false end.

(** The phone is one the batch sends a request for. *)
Definition concerned t p : bool := bool_decide (id p = t) || isActive p.

(** The request sent for a phone of the list, if any. *)
Definition requestFor t p : option Write :=
  if concerned t p then Some (UpdateDoc (id p) (bool_decide (id p = t)))
  else None.

(** Document [k] is written by an accepted request of the batch. *)
Definition written be t (l : list PhoneNumber) k : bool :=
  existsb (λ p, bool_decide (id p = k) && concerned t p
                && accepts be (UpdateDoc k (bool_decide (k = t)))) l.

(** The document [d] stored at [k], after the batch started from the
    list [l] for target [t]. *)
Definition toggled be t l k d : Doc.t :=
  if written be t l k then setActive (bool_decide (k = t)) d else d.

(** The request for [p] goes through on collection [m]. *)
Definition passes be t m p : Prop :=
  concerned t p = true →
  is_Some (m !! id p) ∧ accepts be (UpdateDoc (id p) (bool_decide (id p = t))) = true.

(** The same when the list is the snapshot of the collection. *)
Definition afterToggle be t k d : Doc.t :=
  if (bool_decide (k = t) || Doc.isActive d)
     && accepts be (UpdateDoc k (bool_decide (k = t)))
  then setActive (bool_decide (k = t)) d else d.

(** The document [add] asks the store to create. *)
Definition created (v : JsString) : Doc.t := Doc.mk (trim v) false.

(** Sample data: two phones with ids 1 and 2, and a backend naming
    every new document [new]. *)
Definition phones12 (n1 n2 : JsString) (a1 a2 : bool) : gmap JsString Doc.t :=
  <[lit "1" := Doc.mk n1 a1]> (<[lit "2" := Doc.mk n2 a2]> ∅).

Definition fixedId : gmap JsString Doc.t → JsString := λ _, lit "new".

(** One [add] gains the collection exactly one phone, inactive, and the
    list the panel holds right after shows it. *)
Definition addsOneInactive be (v : JsString) s : Prop :=
  ∃ p, isActive p = false
       ∧ snapshot (db (world (add be v s))) ≡ₚ p :: snapshot (db (world s))
       ∧ p ∈ phoneNumbers (comp (add be v s)).

(** A backend that refuses the requests on document [k] only. *)
Definition refusing (k : JsString) : Backend :=
  mkBackend (λ w, match w with
                  | UpdateDoc k' _ => negb (bool_decide (k' = k))
                  | _ => true
                  end) fixedId.

(** At most one phone of the collection is active. *)
Definition atMostOneActive m : Prop := length (actives m) ≤ 1.

End SettingsNotions.

Section LibraryNotions.

Import Library.

Implicit Types (env : Env) (c : Component) (s : Sys) (b : PartialBeat).

(** The request of [handleAddBeat] lacks the signed-in user or a
    required field; a field is missing when it is undefined or empty. *)
Definition preconditionFails c s : Prop :=
  currentUser (world s) = None
  ∨ audioFile c = None
  ∨ truthyOpt (title (newBeat c)) = false
  ∨ truthyOpt (genre (newBeat c)) = false
  ∨ truthyOpt (producerName (newBeat c)) = false.

(** The notice shown for a request that fails the precondition. *)
Definition rejection s : JsString :=
  match currentUser (world s) with
  | None => lit "Please sign in to upload beats"
  | Some _ => lit "Please fill in all required fields and upload an audio file"
  end.

(** The keywords as the claim words them. *)
Definition loweredKeywords (lower : JsString → JsString)
    (t g p : JsString) (ts : list JsString) : list JsString :=
  filter (λ x, x ≠ []) ([lower t; lower g; lower p] ++ map lower ts).

(** A computation that leaves the collection [beats] alone. *)
Definition keepsBeats {A} (m : M Sys Error A) : Prop :=
  ∀ s, beats (world (m s).2) = beats (world s).

(** A computation that leaves the collection as it is or sets the new
    document of the form [c] at the generated id. *)
Definition createsAtMost env c {A} (m : M Sys Error A) : Prop :=
  ∀ s, beats (world (m s).2) = beats (world s)
       ∨ ∃ u a p i o,
           beats (world (m s).2)
           = <[autoId env (beats (world s))
               := mkBeatDoc (beatDocument (newBeat c) u a p i
                               (keywords env (newBeat c))) o]> (beats (world s)).

(** A sample run: a lowercasing of the ASCII letters, services that
    accept everything, a filled form, one signed-in user. *)
Definition lowerAscii (x : JsString) : JsString :=
  map (λ u, if ((65 <=? u) && (u <=? 90))%N then (u + 32)%N else u) x.

Definition sampleEnv : Env :=
  mkEnv (λ _, true) (λ _, lit "b1") (λ path, lit "https://cdn/" ++ path)
        (λ n, 1700 + N.of_nat n)%N lowerAscii.

Definition sampleForm : Component :=
  mkComponent
    {| title := Some (lit "Night Ride"); producerId := None;
       producerName := Some (lit "DJ Gio");
       audioUrl := None; previewUrl := None; duration := Some (Finite 7 0);
       genre := Some (lit "Trap"); tags := Some [lit "Dark"; []; lit "808"];
       bpm := Some (Finite 140 0); price := Some (Finite 25 0);
       licenseTypes := None;
       plays := Some (Finite 5 0); purchases := None; likes := None;
       createdAt := None; updatedAt := None; imageUrl := None;
       isActive := Some true; isFeatured := Some false;
       searchKeywords := Some [] |}
    (Some (mkFile (lit "ride.mp3") [1; 2; 3]%N)) None None false.

Definition sampleSys : Sys :=
  mkSys sampleForm (mkWorld (Some (mkUser (lit "u7"))) ∅ ∅ [] [] [] 0).

Definition sampleDoc : BeatDoc :=
  mkBeatDoc
    (beatDocument (newBeat sampleForm) (lit "u7")
       (lit "https://cdn/beats/u7/1700-full.mp3")
       (lit "https://cdn/beats/u7/1700-full.mp3") []
       [lit "night ride"; lit "trap"; lit "dj gio"; lit "dark"; lit "808"])
    (Some (lit "b1")).

(** The sample services with another rule for what is accepted. *)
Definition sampleEnvWith (rule : Request → bool) : Env :=
  mkEnv rule (autoId sampleEnv) (downloadURL sampleEnv) (now sampleEnv)
        (toLowerCase sampleEnv).

Definition noUploads (r : Request) : bool :=
  match r with UploadBytes _ _ => false | _ => true end.

Definition noDocuments (r : Request) : bool :=
  match r with AddDoc _ => false | _ => true end.

Definition noIdWrite (r : Request) : bool :=
  match r with UpdateDoc _ _ => false | _ => true end.

Definition noDeletes (r : Request) : bool :=
  match r with DeleteDoc _ => false | _ => true end.

End LibraryNotions.

(** * Properties *)

(** ** Trimming *)

Section TrimFacts.

Lemma trimStart_nil_iff (s : JsString) : trimStart s = [] ↔ blank s = true.
Proof.
  induction s as [|c s IH]; simpl; [done|].
  destruct (isWhiteSpace c); simpl; [done|]. split; discriminate.
Qed.

Lemma trimStart_head (s : JsString) (c : N) (r : JsString) :
  trimStart s = c :: r → isWhiteSpace c = false.
Proof.
  induction s as [|a s IH]; simpl; [done|].
  destruct (isWhiteSpace a) eqn:Ha; [done|]. by intros [= <- _].
Qed.

Lemma blank_app (s r : JsString) : blank (s ++ r) = blank s && blank r.
Proof. apply forallb_app. Qed.

Lemma blank_rev (s : JsString) : blank (rev s) = blank s.
Proof.
  induction s as [|c s IH]; simpl; [done|].
  rewrite blank_app, IH. simpl. rewrite andb_true_r. apply andb_comm.
Qed.

Lemma trimStart_split (s : JsString) :
  ∃ l, s = l ++ trimStart s ∧ blank l = true.
Proof.
  induction s as [|c s (l & Hl & Hb)]; simpl; [by exists []|].
  destruct (isWhiteSpace c) eqn:Hc.
  - exists (c :: l). simpl. rewrite Hc, Hb. split; [by f_equal|done].
  - by exists [].
Qed.

(** Trimming gives the empty string exactly on blank strings. *)
Lemma trim_nil_iff (s : JsString) : trim s = [] ↔ blank s = true.
Proof.
  unfold trim, trimEnd. rewrite <- trimStart_nil_iff.
  split.
  - intros H. apply (f_equal (@rev N)) in H. rewrite rev_involutive in H.
    simpl in H. apply trimStart_nil_iff in H. rewrite blank_rev in H.
    destruct (trimStart s) as [|c r] eqn:E; [done|].
    apply trimStart_head in E. simpl in H. by rewrite E in H.
  - intros ->. done.
Qed.

Lemma truthy_trim (s : JsString) : truthy (trim s) = negb (blank s).
Proof.
  destruct (blank s) eqn:Hb.
  - apply trim_nil_iff in Hb. by rewrite Hb.
  - destruct (trim s) eqn:E; [|done].
    apply trim_nil_iff in E. congruence.
Qed.

(** The trimmed form is the input without a blank prefix and a blank
    suffix, and it neither starts nor ends with white space. *)
Lemma trim_spec (s : JsString) :
  ∃ l r, s = l ++ trim s ++ r ∧ blank l = true ∧ blank r = true
         ∧ (∀ c, head (trim s) = Some c → isWhiteSpace c = false)
         ∧ (∀ c, last (trim s) = Some c → isWhiteSpace c = false).
Proof.
  destruct (trimStart_split s) as (l & Hl & Hbl).
  destruct (trimStart_split (rev (trimStart s))) as (r & Hr & Hbr).
  exists l, (rev r). unfold trim, trimEnd.
  split; [|split; [done|split; [by rewrite blank_rev|split]]].
  - rewrite <- rev_app_distr, <- Hr, rev_involutive. done.
  - intros c Hc.
    destruct (trimStart (rev (trimStart s))) as [|z t] eqn:E; [done|].
    assert (Hs : trimStart s = rev t ++ z :: rev r).
    { apply (f_equal (@rev N)) in Hr. rewrite rev_involutive in Hr.
      rewrite Hr, rev_app_distr. simpl. by rewrite <- app_assoc. }
    simpl in Hc.
    destruct (rev t) as [|y u] eqn:Et.
    + simpl in *. injection Hc as <-. by apply trimStart_head in E.
    + simpl in Hc. injection Hc as <-. rewrite Hs in *.
      destruct (trimStart s) eqn:E'; [done|].
      simpl in Hs. injection Hs as -> _. by apply trimStart_head in E'.
  - intros c Hc.
    destruct (trimStart (rev (trimStart s))) as [|z t] eqn:E; [done|].
    simpl in Hc. rewrite last_snoc in Hc. injection Hc as <-.
    by apply trimStart_head in E.
Qed.

End TrimFacts.

(** ** The phone-number panel *)

Section SettingsFacts.

Import Settings.

Implicit Types (m : gmap JsString Doc.t) (s : Sys) (be : Backend)
  (k t : JsString) (d : Doc.t) (p : PhoneNumber).

(** *** What a snapshot shows *)

Lemma elem_of_snapshot m p :
  p ∈ snapshot m ↔ m !! id p = Some (Doc.mk (number p) (isActive p)).
Proof.
  unfold snapshot. rewrite list_elem_of_fmap. split.
  - intros ([k d] & -> & H). apply elem_of_map_to_list in H.
    simpl. by destruct d.
  - intros H. exists (id p, Doc.mk (number p) (isActive p)). split.
    + by destruct p.
    + by apply elem_of_map_to_list.
Qed.

Lemma elem_of_snapshot_shown m k d : shown k d ∈ snapshot m ↔ m !! k = Some d.
Proof. rewrite elem_of_snapshot. simpl. by destruct d. Qed.

Lemma snapshot_insert_fresh m k d :
  m !! k = None → snapshot (<[k:=d]> m) ≡ₚ shown k d :: snapshot m.
Proof.
  intros H. unfold snapshot. by rewrite (map_to_list_insert m k d H).
Qed.

Lemma snapshot_delete m k d :
  m !! k = Some d → snapshot m ≡ₚ shown k d :: snapshot (delete k m).
Proof.
  intros H. rewrite <- (snapshot_insert_fresh (delete k m) k d).
  - by rewrite insert_delete_id.
  - apply lookup_delete_eq.
Qed.

Lemma snapshot_empty : snapshot ∅ = [].
Proof. unfold snapshot. by rewrite map_to_list_empty. Qed.

Lemma snapshot_ids_NoDup m : NoDup (map id (snapshot m)).
Proof.
  unfold snapshot. rewrite <- list_fmap_compose.
  apply (NoDup_fst_map_to_list m).
Qed.

(** *** Counting the active phones *)

Lemma actives_cons p l :
  filter (λ q, isActive q = true) (p :: l)
  = if isActive p then p :: filter (λ q, isActive q = true) l
    else filter (λ q, isActive q = true) l.
Proof.
  rewrite filter_cons. destruct (isActive p); by case_decide.
Qed.

Lemma actives_delete m k d :
  m !! k = Some d →
  actives m ≡ₚ if Doc.isActive d then shown k d :: actives (delete k m)
               else actives (delete k m).
Proof.
  intros H. unfold actives. rewrite (snapshot_delete m k d H).
  by rewrite actives_cons.
Qed.

Lemma actives_insert m k d :
  actives (<[k:=d]> m) ≡ₚ if Doc.isActive d then shown k d :: actives (delete k m)
                          else actives (delete k m).
Proof.
  rewrite (actives_delete (<[k:=d]> m) k d) by apply lookup_insert_eq.
  by rewrite delete_insert_eq.
Qed.

Lemma actives_delete_length m k :
  length (actives (delete k m)) ≤ length (actives m).
Proof.
  destruct (m !! k) as [d|] eqn:H.
  - rewrite (actives_delete m k d H). destruct (Doc.isActive d); simpl; lia.
  - by rewrite delete_id.
Qed.

Lemma actives_nil_iff m :
  actives m = [] ↔ ∀ k d, m !! k = Some d → Doc.isActive d = false.
Proof.
  unfold actives. split.
  - intros H k d Hk. apply elem_of_snapshot_shown in Hk.
    destruct (Doc.isActive d) eqn:Hd; [|done].
    assert (Hin : shown k d ∈ filter (λ q, isActive q = true) (snapshot m))
      by (apply list_elem_of_filter; done).
    rewrite H in Hin. by apply not_elem_of_nil in Hin.
  - intros H. destruct (filter _ _) as [|p l] eqn:E; [done|].
    assert (Hin : p ∈ filter (λ q, isActive q = true) (snapshot m))
      by (rewrite E; left).
    apply list_elem_of_filter in Hin as [Hp Hin].
    apply elem_of_snapshot in Hin. apply H in Hin. simpl in Hin. congruence.
Qed.

(** The collection has [k] active and nothing else. *)
Lemma actives_sole m k d :
  m !! k = Some d → Doc.isActive d = true →
  (∀ k' d', k' ≠ k → m !! k' = Some d' → Doc.isActive d' = false) →
  actives m = [shown k d].
Proof.
  intros Hk Hd Hrest. apply Permutation_singleton_r.
  rewrite (actives_delete m k d Hk), Hd.
  replace (actives (delete k m)) with (@nil PhoneNumber); [done|].
  symmetry. apply actives_nil_iff. intros k' d' H.
  apply lookup_delete_Some in H as [Hne H]. eauto.
Qed.

(** *** One run of the batch of updates *)

Lemma promiseAll_cons_snd {S E} (q : M S E unit) (qs : list (M S E unit)) (x : S) :
  (promiseAll (q :: qs) x).2 = (promiseAll qs (q x).2).2.
Proof. simpl. destruct (q x) as [[[]|e] x']; simpl; done. Qed.

Lemma promiseAll_cons_fst {S E} (q : M S E unit) (qs : list (M S E unit)) (x : S) :
  isOk (promiseAll (q :: qs) x).1
  = isOk (q x).1 && isOk (promiseAll qs (q x).2).1.
Proof. simpl. destruct (q x) as [[[]|e] x']; simpl; done. Qed.

Lemma batchUpdates_eq be c t :
  batchUpdates be c t = map (update be t) (phoneNumbers c).
Proof. done. Qed.

Lemma update_run be t p s :
  let r := update be t p s in
  comp r.2 = comp s
  ∧ console (world r.2) = console (world s)
  ∧ issued (world r.2) = issued (world s) ++ option_list (requestFor t p)
  ∧ (∀ k, db (world r.2) !! k = toggled be t [p] k <$> db (world s) !! k)
  ∧ (isOk r.1 = true ↔ passes be t (db (world s)) p).
Proof.
  assert (Hid : ∀ k, db (world s) !! k = (λ d, d) <$> db (world s) !! k)
    by (intros k; by destruct (db (world s) !! k)).
  unfold update, requestFor, toggled, written, passes, concerned, updateDoc.
  destruct s as [c [m i o]]. simpl in *.
  destruct (bool_decide (id p = t)) eqn:Ht; simpl;
    [|destruct (isActive p) eqn:Ha; simpl].
  3: { rewrite app_nil_r. repeat split; try done.
       intros k. rewrite andb_false_r. simpl. apply Hid. }
  all: destruct (m !! id p) as [d|] eqn:Hp; simpl;
    [destruct (accepts be _) eqn:Hacc; simpl|].
  all: repeat split; try done;
    try (by intros [[? ?] ?]; [done|rewrite ?orb_true_r; done]).
  all: try (by intros [? ?]; [done|rewrite ?orb_true_r; done]).
  all: intros k; destruct (decide (id p = k)) as [<-|Hne];
    rewrite ?bool_decide_eq_true_2, ?Ht, ?Hp, ?Hacc,
      ?lookup_insert_eq by done; simpl; try done.
  all: rewrite ?lookup_insert_ne by done;
    rewrite ?(bool_decide_eq_false_2 (id p = k)) by done; simpl;
    try apply Hid.
  all: rewrite ?andb_false_r; simpl; try apply Hid.
Qed.

Lemma toggled_cons be t p l k d :
  toggled be t (p :: l) k d = toggled be t l k (toggled be t [p] k d).
Proof.
  unfold toggled, written. simpl. rewrite orb_false_r.
  destruct (_ && _ && _); simpl; [|done].
  by destruct (existsb _ l).
Qed.

Lemma batch_run be t (l : list PhoneNumber) s :
  let r := promiseAll (map (update be t) l) s in
  comp r.2 = comp s
  ∧ console (world r.2) = console (world s)
  ∧ issued (world r.2) = issued (world s) ++ omap (requestFor t) l
  ∧ (∀ k, db (world r.2) !! k = toggled be t l k <$> db (world s) !! k)
  ∧ (isOk r.1 = true ↔ Forall (passes be t (db (world s))) l).
Proof.
  revert s. induction l as [|p l IH]; intros s.
  - simpl. rewrite app_nil_r. repeat split; try done.
    intros k. by destruct (db (world s) !! k).
  - cbn zeta.
    change (map (update be t) (p :: l))
      with (update be t p :: map (update be t) l).
    rewrite promiseAll_cons_snd, promiseAll_cons_fst.
    destruct (update_run be t p s) as (Hc & Ho & Hi & Hd & Hr).
    destruct (IH (update be t p s).2) as (Hc' & Ho' & Hi' & Hd' & Hr').
    split; [congruence|]. split; [congruence|]. split; [|split].
    + rewrite Hi', Hi. simpl. destruct (requestFor t p); simpl;
        by rewrite <- ?app_assoc, ?app_nil_r.
    + intros k. rewrite Hd', Hd. destruct (db (world s) !! k); simpl; [|done].
      by rewrite (toggled_cons be t p l).
    + rewrite andb_true_iff, Hr, Hr', Forall_cons.
      apply and_iff_compat_l. apply Forall_iff. intros q.
      unfold passes. rewrite Hd. by rewrite fmap_is_Some.
Qed.

(** What [handleToggleActive] leaves behind, for any list the render
    holds: every request of the batch is sent, the accepted ones are
    applied, and one line is logged when some request did not pass. *)
Lemma handleToggleActive_run be c t s :
  let s' := (handleToggleActive be c t s).2 in
  comp s' = comp s
  ∧ issued (world s') = issued (world s) ++ omap (requestFor t) (phoneNumbers c)
  ∧ (∀ k, db (world s') !! k
          = toggled be t (phoneNumbers c) k <$> db (world s) !! k)
  ∧ (reported s s' = false ↔ Forall (passes be t (db (world s))) (phoneNumbers c)).
Proof.
  unfold handleToggleActive, tryCatch. rewrite batchUpdates_eq.
  destruct (batch_run be t (phoneNumbers c) s) as (Hc & Ho & Hi & Hd & Hr).
  destruct (promiseAll _ s) as [[[]|e] s1]; simpl in *.
  - repeat split; try done.
    + intros _. by apply Hr.
    + intros _. unfold reported. rewrite Ho. apply Nat.ltb_irrefl.
  - repeat split; try done.
    + unfold reported. simpl. rewrite Ho, length_app. simpl.
      intros H. apply Nat.ltb_ge in H. lia.
    + intros H. apply Hr in H. done.
Qed.

(** The requests of one batch write different documents the same
    value, so the collection they leave does not depend on the order in
    which the store serves them. *)
Lemma written_Permutation be t (l l' : list PhoneNumber) k :
  l ≡ₚ l' → written be t l k = written be t l' k.
Proof.
  intros Hperm. unfold written. apply eq_true_iff_eq.
  rewrite !existsb_exists. split; intros (p & Hp & H); exists p;
    (split; [|done]); apply list_elem_of_In; apply list_elem_of_In in Hp.
  - by rewrite <- Hperm.
  - by rewrite Hperm.
Qed.

Lemma batch_order be t (l l' : list PhoneNumber) s k :
  l ≡ₚ l' →
  db (world (promiseAll (map (update be t) l) s).2) !! k
  = db (world (promiseAll (map (update be t) l') s).2) !! k.
Proof.
  intros Hperm.
  destruct (batch_run be t l s) as (_ & _ & _ & -> & _).
  destruct (batch_run be t l' s) as (_ & _ & _ & -> & _).
  unfold toggled. by rewrite (written_Permutation be t l l' k Hperm).
Qed.

(** A handler catches what its body throws: the promise it returns is
    always fulfilled. *)
Lemma tryCatch_isOk {S E A} (body : M S E A) (handler : E → M S E A) (x : S) :
  (∀ e y, isOk (handler e y).1 = true) → isOk (tryCatch body handler x).1 = true.
Proof.
  intros Hh. unfold tryCatch. destruct (body x) as [[a|e] y]; [done|apply Hh].
Qed.

Lemma handlers_fulfilled be c t s :
  isOk (handleAddPhoneNumber be c s).1 = true
  ∧ isOk (handleToggleActive be c t s).1 = true
  ∧ isOk (handleDeletePhoneNumber be c s).1 = true.
Proof.
  split; [|split].
  - unfold handleAddPhoneNumber. destruct (negb _); [done|].
    by apply tryCatch_isOk.
  - by apply tryCatch_isOk.
  - unfold handleDeletePhoneNumber.
    destruct (phoneId (deleteDialog c)) as [[|a pid]|]; try done.
    by apply tryCatch_isOk.
Qed.

(** *** Events on a panel that shows the collection as it is *)

Lemma dispatch_world (h : Component → M Sys Error unit) s :
  world (dispatch h s) = world (h (comp s) s).2.
Proof. done. Qed.

Lemma dispatch_synced (h : Component → M Sys Error unit) s :
  synced (dispatch h s).
Proof. done. Qed.

Lemma reported_world s s1 s2 :
  world s1 = world s2 → reported s s1 = reported s s2.
Proof. unfold reported. by intros ->. Qed.

Lemma written_snapshot be t m k d :
  m !! k = Some d →
  written be t (snapshot m) k
  = (bool_decide (k = t) || Doc.isActive d)
    && accepts be (UpdateDoc k (bool_decide (k = t))).
Proof.
  intros Hk. unfold written, concerned.
  destruct ((_ || _) && _) eqn:E.
  - apply existsb_exists. exists (shown k d). split.
    + apply list_elem_of_In. by apply elem_of_snapshot_shown.
    + simpl. rewrite (bool_decide_eq_true_2 (k = k)) by done. exact E.
  - apply not_true_is_false. intros (p & Hp & H)%existsb_exists.
    apply list_elem_of_In, elem_of_snapshot in Hp.
    apply andb_true_iff in H as [[Hid%bool_decide_eq_true Hc]%andb_true_iff Ha].
    subst k. rewrite Hk in Hp. injection Hp as ->. simpl in E.
    rewrite Hc, Ha in E. done.
Qed.

Lemma passes_snapshot be t m :
  Forall (passes be t m) (snapshot m)
  ↔ ∀ k d, m !! k = Some d →
           bool_decide (k = t) || Doc.isActive d = true →
           accepts be (UpdateDoc k (bool_decide (k = t))) = true.
Proof.
  rewrite Forall_forall. unfold passes, concerned. split.
  - intros H k d Hk Hc. apply (H (shown k d)); [|done].
    by apply elem_of_snapshot_shown.
  - intros H p Hp Hc. apply elem_of_snapshot in Hp. split; [by eexists|].
    by apply (H _ _ Hp).
Qed.

Lemma activate_lookup be t s k :
  synced s →
  db (world (activate be t s)) !! k = afterToggle be t k <$> db (world s) !! k.
Proof.
  intros Hs. unfold activate. rewrite dispatch_world.
  destruct (handleToggleActive_run be (comp s) t s) as (_ & _ & Hd & _).
  rewrite Hd, Hs. destruct (db (world s) !! k) as [d|] eqn:Hk; [|done].
  simpl. unfold toggled, afterToggle. by rewrite (written_snapshot be t _ k d).
Qed.

Lemma activate_issued be t s :
  issued (world (activate be t s))
  = issued (world s) ++ omap (requestFor t) (phoneNumbers (comp s)).
Proof.
  unfold activate. rewrite dispatch_world.
  by destruct (handleToggleActive_run be (comp s) t s) as (_ & Hi & _).
Qed.

Lemma activate_quiet_iff be t s :
  synced s →
  reported s (activate be t s) = false
  ↔ ∀ k d, db (world s) !! k = Some d →
           bool_decide (k = t) || Doc.isActive d = true →
           accepts be (UpdateDoc k (bool_decide (k = t))) = true.
Proof.
  intros Hs. rewrite <- passes_snapshot, <- Hs.
  destruct (handleToggleActive_run be (comp s) t s) as (_ & _ & _ & Hr).
  rewrite <- Hr. unfold activate.
  by rewrite (reported_world s _ (handleToggleActive be (comp s) t s).2).
Qed.

(** A run without failure turns the target on and every other phone off. *)
Lemma activate_quiet_lookup be t s k :
  synced s → reported s (activate be t s) = false →
  db (world (activate be t s)) !! k
  = setActive (bool_decide (k = t)) <$> db (world s) !! k.
Proof.
  intros Hs Hq. rewrite activate_lookup by done.
  destruct (db (world s) !! k) as [d|] eqn:Hk; [|done]. simpl. f_equal.
  unfold afterToggle.
  destruct (bool_decide (k = t) || Doc.isActive d) eqn:Hc; simpl.
  - by rewrite (proj1 (activate_quiet_iff be t s Hs) Hq k d Hk Hc).
  - apply orb_false_iff in Hc as [-> Ha]. destruct d. simpl in *. by subst.
Qed.

(** On a collection whose only active phone is the target, the batch
    is the one request for the target. *)
Lemma requests_sole t m d :
  m !! t = Some d →
  (∀ k' d', k' ≠ t → m !! k' = Some d' → Doc.isActive d' = false) →
  omap (requestFor t) (snapshot m) = [UpdateDoc t true].
Proof.
  intros Ht Hrest. apply Permutation_singleton_r.
  rewrite (snapshot_delete m t d Ht). cbn [omap list_omap].
  unfold requestFor at 1, concerned. cbn [id shown].
  rewrite bool_decide_eq_true_2 by done. cbn [orb].
  destruct (omap (requestFor t) (snapshot (delete t m))) as [|w ws] eqn:E;
    [done|].
  assert (Hin : w ∈ omap (requestFor t) (snapshot (delete t m)))
    by (rewrite E; left).
  apply list_elem_of_omap in Hin as (p & Hp & Hreq).
  apply elem_of_snapshot in Hp. apply lookup_delete_Some in Hp as [Hne Hp].
  apply Hrest in Hp; [|done]. simpl in Hp.
  unfold requestFor, concerned in Hreq.
  rewrite Hp, (bool_decide_eq_false_2 (id p = t)) in Hreq by done. done.
Qed.

(** *** Adding and removing *)

Lemma add_blank be (v : JsString) s :
  blank v = true →
  world (add be v s) = world s ∧ newPhoneNumber (comp (add be v s)) = v.
Proof.
  intros Hb. unfold add, dispatch, handleAddPhoneNumber. simpl.
  rewrite truthy_trim, Hb. done.
Qed.

Lemma add_accepted be (v : JsString) s :
  blank v = false → accepts be (AddDoc (created v)) = true →
  db (world (add be v s)) = <[autoId be (db (world s)) := created v]> (db (world s))
  ∧ issued (world (add be v s)) = issued (world s) ++ [AddDoc (created v)]
  ∧ console (world (add be v s)) = console (world s)
  ∧ newPhoneNumber (comp (add be v s)) = [].
Proof.
  intros Hb Ha. unfold add, dispatch, handleAddPhoneNumber. simpl.
  rewrite truthy_trim, Hb. simpl.
  unfold tryCatch, bind, addDoc. fold (created v). rewrite Ha. done.
Qed.

Lemma add_rejected be (v : JsString) s :
  blank v = false → accepts be (AddDoc (created v)) = false →
  db (world (add be v s)) = db (world s)
  ∧ issued (world (add be v s)) = issued (world s) ++ [AddDoc (created v)]
  ∧ reported s (add be v s) = true
  ∧ newPhoneNumber (comp (add be v s)) = v.
Proof.
  intros Hb Ha. unfold add, dispatch, handleAddPhoneNumber. simpl.
  rewrite truthy_trim, Hb. simpl.
  unfold tryCatch, bind, addDoc. fold (created v). rewrite Ha. simpl.
  repeat split; try done.
  unfold reported. simpl. rewrite length_app. simpl. apply Nat.ltb_lt. lia.
Qed.

(** Whatever the backend does, [add] leaves the collection as it was or
    with the created document set at the generated id. *)
Lemma add_db be (v : JsString) s :
  db (world (add be v s)) = db (world s)
  ∨ db (world (add be v s))
    = <[autoId be (db (world s)) := created v]> (db (world s)).
Proof.
  destruct (blank v) eqn:Hb.
  - left. by rewrite (proj1 (add_blank be v s Hb)).
  - destruct (accepts be (AddDoc (created v))) eqn:Ha.
    + right. apply (add_accepted be v s Hb Ha).
    + left. apply (add_rejected be v s Hb Ha).
Qed.

Lemma remove_db be (pid pnumber : JsString) s :
  db (world (remove be pid pnumber s))
  = if truthy pid && accepts be (DeleteDoc pid)
    then delete pid (db (world s)) else db (world s).
Proof.
  unfold remove, dispatch, handleDeletePhoneNumber. simpl.
  destruct pid as [|c pid]; simpl; [done|].
  unfold tryCatch, bind, deleteDoc. by destruct (accepts be _).
Qed.

(** Removing a phone and then activating its id: the panel no longer
    lists it, nothing is sent for it and nothing is logged. *)
Lemma remove_then_activate_quiet be be' (pid pnumber : JsString) s :
  truthy pid = true → accepts be (DeleteDoc pid) = true →
  (∀ w, accepts be' w = true) →
  db (world (remove be pid pnumber s)) !! pid = None
  ∧ reported (remove be pid pnumber s)
      (activate be' pid (remove be pid pnumber s)) = false.
Proof.
  intros Hpid Hdel Hacc. split.
  - rewrite remove_db, Hpid, Hdel. apply lookup_delete_eq.
  - apply activate_quiet_iff; [apply dispatch_synced|]. intros; apply Hacc.
Qed.

(** A list that lags behind the collection (phone 1 was activated
    elsewhere and the panel has not heard of it yet): an activation of
    phone 2 without failure leaves both active. *)
Example activate_from_stale_list :
  let s := mkSys (mkComponent (snapshot (phones12 [] [] false false)) []
                    (mkDeleteDialog false None []))
                 (mkWorld (phones12 [] [] true false) [] []) in
  reported s (activate (reliable fixedId) (lit "2") s) = false
  ∧ length (actives (db (world (activate (reliable fixedId) (lit "2") s)))) = 2.
Proof. vm_compute. done. Qed.

(** *** The claims about the panel *)

Lemma activate_quiet_actives be t s d :
  synced s → db (world s) !! t = Some d →
  reported s (activate be t s) = false →
  actives (db (world (activate be t s))) = [mkPhoneNumber t (Doc.number d) true].
Proof.
  intros Hs Ht Hq.
  apply (actives_sole _ t (setActive true d)); [|done|].
  - rewrite activate_quiet_lookup, Ht by done. simpl.
    by rewrite bool_decide_eq_true_2.
  - intros k' d' Hne H. rewrite activate_quiet_lookup in H by done.
    destruct (db (world s) !! k') as [d0|]; [|done].
    simpl in H. injection H as <-. simpl. by apply bool_decide_eq_false_2.
Qed.

(** C1. On a panel that shows the collection, an activation of an
    existing phone that logs no failure leaves exactly one active phone,
    the target; from phones 1 (active) and 2 (inactive), activating 2
    gives 1 inactive and 2 active. *)
Theorem activate_exactly_one_active :
  (∀ be s t d,
     synced s → db (world s) !! t = Some d →
     reported s (activate be t s) = false →
     actives (db (world (activate be t s)))
     = [mkPhoneNumber t (Doc.number d) true])
  ∧ (∀ n1 n2,
       db (world (activate (reliable fixedId) (lit "2")
                    (mount (phones12 n1 n2 true false))))
       = phones12 n1 n2 false true).
Proof.
  split.
  - intros be s t d. apply activate_quiet_actives.
  - intros n1 n2. vm_compute. reflexivity.
Qed.

Lemma activate_exactly_one_active_witness :
  synced (mount (phones12 (lit "0788") (lit "0722") true false))
  ∧ actives (db (world (activate (reliable fixedId) (lit "2")
                (mount (phones12 (lit "0788") (lit "0722") true false)))))
    = [mkPhoneNumber (lit "2") (lit "0722") true].
Proof.
  split; [reflexivity|].
  apply (proj1 activate_exactly_one_active (reliable fixedId)
           (mount (phones12 (lit "0788") (lit "0722") true false))
           (lit "2") (Doc.mk (lit "0722") false));
    [reflexivity | vm_compute; reflexivity | vm_compute; reflexivity].
Defined.






(** C3, as stated, at a value of two spaces: nothing is created, though
    the backend would accept the document. *)
Lemma add_blank_creates_nothing :
  ¬ addsOneInactive (reliable fixedId) (lit "  ") (mount ∅).
Proof.
  intros (p & _ & Hperm & _). apply Permutation_length in Hperm.
  vm_compute in Hperm. discriminate.
Qed.

(** C3, amended. For every value that is not blank, an [add] whose
    document the backend accepts under an id not yet in use creates
    exactly one phone, inactive, holding the trimmed value; the list
    read right after shows it, and every phone already there stays as it
    was, whatever its number: no uniqueness of numbers is enforced. *)
Theorem add_creates_inactive be (v : JsString) s :
  blank v = false →
  accepts be (AddDoc (created v)) = true →
  db (world s) !! autoId be (db (world s)) = None →
  addsOneInactive be v s
  ∧ snapshot (db (world (add be v s)))
    ≡ₚ mkPhoneNumber (autoId be (db (world s))) (trim v) false
       :: snapshot (db (world s))
  ∧ mkPhoneNumber (autoId be (db (world s))) (trim v) false
    ∈ phoneNumbers (comp (add be v s))
  ∧ (∀ k d, db (world s) !! k = Some d → db (world (add be v s)) !! k = Some d).
Proof.
  intros Hb Ha Hfresh.
  destruct (add_accepted be v s Hb Ha) as (Hdb & _).
  assert (Hperm : snapshot (db (world (add be v s)))
                  ≡ₚ mkPhoneNumber (autoId be (db (world s))) (trim v) false
                     :: snapshot (db (world s))).
  { rewrite Hdb. by apply (snapshot_insert_fresh _ _ (created v)). }
  assert (Hin : mkPhoneNumber (autoId be (db (world s))) (trim v) false
                ∈ phoneNumbers (comp (add be v s))).
  { change (phoneNumbers (comp (add be v s)))
      with (snapshot (db (world (add be v s)))).
    rewrite Hperm. left. }
  split; [|split; [done|split; [done|]]].
  - eexists. split; [|split; [exact Hperm|exact Hin]]. done.
  - intros k d Hk. rewrite Hdb. rewrite lookup_insert_ne; [done|]. congruence.
Qed.

Lemma add_creates_inactive_witness :
  blank (lit " 0788 ") = false
  ∧ db (world (mount (phones12 (lit "0788") (lit "0722") true false)))
      !! lit "new" = None
  ∧ snapshot (db (world (add (reliable fixedId) (lit " 0788 ")
       (mount (phones12 (lit "0788") (lit "0722") true false)))))
    ≡ₚ mkPhoneNumber (lit "new") (lit "0788") false
       :: snapshot (phones12 (lit "0788") (lit "0722") true false).
Proof.
  split; [reflexivity|]. split; [reflexivity|].
  apply (add_creates_inactive (reliable fixedId) (lit " 0788 ")
           (mount (phones12 (lit "0788") (lit "0722") true false)));
    reflexivity.
Defined.

(** C4. On a panel that shows the collection, an activation sends
    requests only for the target and for phones that are active; a phone
    that is neither gets no request and keeps its document; and no
    operation changes the number stored under an id: an activation keeps
    every number, an [add] under an unused id keeps every document, a
    [remove] keeps what it does not delete. *)
Theorem activate_frame be t s :
  synced s →
  ∃ ws,
    issued (world (activate be t s)) = issued (world s) ++ ws
    ∧ (∀ w, w ∈ ws →
         ∃ k d, w = UpdateDoc k (bool_decide (k = t))
                ∧ db (world s) !! k = Some d
                ∧ (k = t ∨ Doc.isActive d = true))
    ∧ (∀ k d, db (world s) !! k = Some d → k ≠ t → Doc.isActive d = false →
              db (world (activate be t s)) !! k = Some d
              ∧ ∀ b, UpdateDoc k b ∉ ws)
    ∧ (∀ k, Doc.number <$> db (world (activate be t s)) !! k
            = Doc.number <$> db (world s) !! k)
    ∧ (∀ v k d, db (world s) !! autoId be (db (world s)) = None →
                db (world s) !! k = Some d →
                db (world (add be v s)) !! k = Some d)
    ∧ (∀ pid pnumber k d,
         db (world (remove be pid pnumber s)) !! k = Some d →
         db (world s) !! k = Some d).
Proof.
  intros Hs. exists (omap (requestFor t) (phoneNumbers (comp s))).
  assert (Hws : ∀ w, w ∈ omap (requestFor t) (phoneNumbers (comp s)) →
            ∃ k d, w = UpdateDoc k (bool_decide (k = t))
                   ∧ db (world s) !! k = Some d
                   ∧ bool_decide (k = t) || Doc.isActive d = true).
  { intros w (p & Hp & Hreq)%list_elem_of_omap.
    rewrite Hs in Hp. apply elem_of_snapshot in Hp.
    unfold requestFor in Hreq. destruct (concerned t p) eqn:Hc; [|done].
    injection Hreq as <-. eauto. }
  split; [apply activate_issued|]. split; [|split; [|split; [|split]]].
  - intros w (k & d & -> & Hk & Hc)%Hws. exists k, d.
    split; [done|split; [done|]].
    apply orb_true_iff in Hc as [Hc%bool_decide_eq_true|Hc]; auto.
  - intros k d Hk Hne Ha. split.
    + rewrite activate_lookup, Hk by done. simpl. unfold afterToggle.
      by rewrite Ha, (bool_decide_eq_false_2 (k = t)).
    + intros b (k' & d' & Heq & Hk' & Hc)%Hws. injection Heq as <- _.
      rewrite Hk in Hk'. injection Hk' as <-.
      by rewrite Ha, (bool_decide_eq_false_2 (k = t)) in Hc.
  - intros k. rewrite activate_lookup by done.
    destruct (db (world s) !! k) as [d|]; [|done]. simpl. f_equal.
    unfold afterToggle. by destruct (_ && _).
  - intros v k d Hfresh Hk. destruct (add_db be v s) as [-> | ->]; [done|].
    rewrite lookup_insert_ne; [done|]. congruence.
  - intros pid pnumber k d. rewrite remove_db.
    destruct (_ && _); [|done]. by intros [_ H]%lookup_delete_Some.
Qed.

Lemma activate_frame_witness :
  synced (mount (<[lit "3" := Doc.mk (lit "0733") false]>
                   (phones12 (lit "0788") (lit "0722") true false)))
  ∧ ∃ ws,
      issued (world (activate (reliable fixedId) (lit "2")
          (mount (<[lit "3" := Doc.mk (lit "0733") false]>
                    (phones12 (lit "0788") (lit "0722") true false)))))
      = [] ++ ws
      ∧ ∀ b, UpdateDoc (lit "3") b ∉ ws.
Proof.
  split; [reflexivity|].
  destruct (activate_frame (reliable fixedId) (lit "2")
              (mount (<[lit "3" := Doc.mk (lit "0733") false]>
                        (phones12 (lit "0788") (lit "0722") true false))))
    as (ws & Hi & _ & Hframe & _); [reflexivity|].
  exists ws. split; [exact Hi|].
  apply (Hframe (lit "3") (Doc.mk (lit "0733") false));
    [reflexivity | discriminate | reflexivity].
Defined.

(** C5. When the backend refuses one of the requests of an activation,
    a failure is logged and the deactivations it accepted stay applied;
    there is a failing run on a collection with one active phone that
    ends with no active phone. *)
Theorem activate_no_rollback :
  (∀ be t s k d,
     synced s → db (world s) !! k = Some d →
     k = t ∨ Doc.isActive d = true →
     accepts be (UpdateDoc k (bool_decide (k = t))) = false →
     reported s (activate be t s) = true
     ∧ ∀ k' d', db (world s) !! k' = Some d' → k' ≠ t →
                Doc.isActive d' = true →
                accepts be (UpdateDoc k' false) = true →
                db (world (activate be t s)) !! k' = Some (setActive false d'))
  ∧ (∃ be t m,
        length (actives m) = 1
        ∧ reported (mount m) (activate be t (mount m)) = true
        ∧ actives (db (world (activate be t (mount m)))) = []).
Proof.
  split.
  - intros be t s k d Hs Hk Hc Hrej. split.
    + apply not_false_iff_true. intros Hq.
      rewrite (proj1 (activate_quiet_iff be t s Hs) Hq k d Hk) in Hrej; [done|].
      destruct Hc as [->| ->]; [by rewrite bool_decide_eq_true_2|].
      apply orb_true_r.
    + intros k' d' Hk' Hne Ha Hacc.
      rewrite activate_lookup, Hk' by done. simpl. unfold afterToggle.
      by rewrite (bool_decide_eq_false_2 (k' = t)), Ha, Hacc.
  - exists (refusing (lit "2")), (lit "2"),
      (phones12 (lit "0788") (lit "0722") true false).
    vm_compute. done.
Qed.

Lemma activate_no_rollback_witness :
  synced (mount (phones12 (lit "0788") (lit "0722") true false))
  ∧ accepts (refusing (lit "2")) (UpdateDoc (lit "2") true) = false
  ∧ reported (mount (phones12 (lit "0788") (lit "0722") true false))
      (activate (refusing (lit "2")) (lit "2")
         (mount (phones12 (lit "0788") (lit "0722") true false))) = true.
Proof.
  split; [reflexivity|]. split; [reflexivity|].
  apply (proj1 activate_no_rollback (refusing (lit "2")) (lit "2")
           (mount (phones12 (lit "0788") (lit "0722") true false))
           (lit "2") (Doc.mk (lit "0722") false));
    [reflexivity | reflexivity | left; reflexivity | reflexivity].
Defined.

(** C7. Each operation keeps "at most one active phone": an [add], a
    [remove], and an activation of an existing phone that logs no
    failure on a panel that shows the collection. *)
Theorem atMostOneActive_preserved be s :
  atMostOneActive (db (world s)) →
  (∀ v, atMostOneActive (db (world (add be v s))))
  ∧ (∀ pid pnumber, atMostOneActive (db (world (remove be pid pnumber s))))
  ∧ (∀ t, synced s → is_Some (db (world s) !! t) →
          reported s (activate be t s) = false →
          atMostOneActive (db (world (activate be t s)))).
Proof.
  unfold atMostOneActive. intros Hinv. split; [|split].
  - intros v. destruct (add_db be v s) as [-> | ->]; [done|].
    rewrite actives_insert. simpl.
    pose proof (actives_delete_length (db (world s)) (autoId be (db (world s)))).
    lia.
  - intros pid pnumber. rewrite remove_db. destruct (_ && _); [|done].
    pose proof (actives_delete_length (db (world s)) pid). lia.
  - intros t Hs [d Ht] Hq.
    by rewrite (activate_quiet_actives be t s d Hs Ht Hq).
Qed.

Lemma atMostOneActive_preserved_witness :
  atMostOneActive (phones12 (lit "0788") (lit "0722") true false)
  ∧ atMostOneActive
      (db (world (add (reliable fixedId) (lit "0755")
         (mount (phones12 (lit "0788") (lit "0722") true false)))))
  ∧ atMostOneActive
      (db (world (activate (reliable fixedId) (lit "2")
         (mount (phones12 (lit "0788") (lit "0722") true false))))).
Proof.
  assert (H : atMostOneActive (phones12 (lit "0788") (lit "0722") true false))
    by (vm_compute; lia).
  split; [exact H|].
  destruct (atMostOneActive_preserved (reliable fixedId)
              (mount (phones12 (lit "0788") (lit "0722") true false)) H)
    as (Hadd & _ & Hact).
  split; [apply Hadd|].
  apply Hact; [reflexivity | by eexists | vm_compute; reflexivity].
Defined.

(** C8. After an activation of an existing phone that logged no
    failure, a second activation of the same phone sends one request,
    the one that sets the target active again, and leaves the collection
    as the first one left it. *)
Theorem activate_idempotent be be' t s :
  synced s → is_Some (db (world s) !! t) →
  reported s (activate be t s) = false →
  db (world (activate be' t (activate be t s))) = db (world (activate be t s))
  ∧ phoneNumbers (comp (activate be' t (activate be t s)))
    = phoneNumbers (comp (activate be t s))
  ∧ issued (world (activate be' t (activate be t s)))
    = issued (world (activate be t s)) ++ [UpdateDoc t true].
Proof.
  intros Hs [d Ht] Hq.
  assert (Hs1 : synced (activate be t s)) by apply dispatch_synced.
  assert (Hdb : db (world (activate be' t (activate be t s)))
                = db (world (activate be t s))).
  { apply map_eq. intros k. rewrite (activate_lookup be') by done.
    rewrite activate_quiet_lookup by done.
    destruct (db (world s) !! k) as [d0|]; [|done]. simpl. f_equal.
    unfold afterToggle. by destruct (_ && _). }
  split; [done|]. split.
  - change (snapshot (db (world (activate be' t (activate be t s))))
            = snapshot (db (world (activate be t s)))).
    by rewrite Hdb.
  - rewrite activate_issued. f_equal. rewrite Hs1.
    apply (requests_sole t _ (setActive true d)).
    + rewrite activate_quiet_lookup, Ht by done. simpl.
      by rewrite bool_decide_eq_true_2.
    + intros k' d' Hne H. rewrite activate_quiet_lookup in H by done.
      destruct (db (world s) !! k') as [d0|]; [|done].
      simpl in H. injection H as <-. simpl. by apply bool_decide_eq_false_2.
Qed.

Lemma activate_idempotent_witness :
  synced (mount (phones12 (lit "0788") (lit "0722") true false))
  ∧ db (world (activate (refusing (lit "2")) (lit "2")
         (activate (reliable fixedId) (lit "2")
            (mount (phones12 (lit "0788") (lit "0722") true false)))))
    = db (world (activate (reliable fixedId) (lit "2")
            (mount (phones12 (lit "0788") (lit "0722") true false)))).
Proof.
  split; [reflexivity|].
  apply (activate_idempotent (reliable fixedId) (refusing (lit "2")) (lit "2")
           (mount (phones12 (lit "0788") (lit "0722") true false)));
    [reflexivity | by eexists | vm_compute; reflexivity].
Defined.

(** C9. An [add] of a blank value (empty, or white space only) sends
    nothing and leaves the collection, the log and the input as they
    were. For any other value it asks the store for one document holding
    the trimmed value, inactive; when the store accepts, that document is
    stored and the input is reset to the empty string. *)
Theorem add_trims_or_skips be (v : JsString) s :
  (blank v = true →
     world (add be v s) = world s ∧ newPhoneNumber (comp (add be v s)) = v)
  ∧ (blank v = false →
       issued (world (add be v s))
       = issued (world s) ++ [AddDoc (Doc.mk (trim v) false)]
       ∧ (accepts be (AddDoc (Doc.mk (trim v) false)) = true →
            db (world (add be v s)) !! autoId be (db (world s))
            = Some (Doc.mk (trim v) false)
            ∧ newPhoneNumber (comp (add be v s)) = [])).
Proof.
  split.
  - apply add_blank.
  - intros Hb. destruct (accepts be (AddDoc (created v))) eqn:Ha.
    + destruct (add_accepted be v s Hb Ha) as (Hdb & Hi & _ & Hn).
      split; [done|]. intros _. split; [|done].
      rewrite Hdb. apply lookup_insert_eq.
    + destruct (add_rejected be v s Hb Ha) as (_ & Hi & _).
      split; [done|]. unfold created in Ha. congruence.
Qed.

Lemma add_trims_or_skips_witness :
  (blank (lit "   ") = true
   ∧ world (add (reliable fixedId) (lit "   ")
              (mount (phones12 (lit "0788") (lit "0722") true false)))
     = world (mount (phones12 (lit "0788") (lit "0722") true false)))
  ∧ (blank (lit " 07 55 ") = false
     ∧ db (world (add (reliable fixedId) (lit " 07 55 ")
                    (mount (phones12 (lit "0788") (lit "0722") true false))))
         !! lit "new"
       = Some (Doc.mk (lit "07 55") false)).
Proof.
  split; (split; [reflexivity|]).
  - apply (proj1 (add_trims_or_skips (reliable fixedId) (lit "   ")
             (mount (phones12 (lit "0788") (lit "0722") true false)))).
    reflexivity.
  - apply (proj2 (add_trims_or_skips (reliable fixedId) (lit " 07 55 ")
             (mount (phones12 (lit "0788") (lit "0722") true false))));
      reflexivity.
Defined.

End SettingsFacts.

(** ** The beat uploader *)

Section LibraryFacts.

Import Library.

Implicit Types (env : Env) (c : Component) (s : Sys) (b : PartialBeat).

(** C6. When nobody is signed in, or the audio file, the title, the
    genre or the producer name is missing, [handleAddBeat] shows the
    notice in an alert and does nothing else: no request is sent, so no
    blob is stored and no document created, and the form is left as it
    was. *)
Theorem handleAddBeat_precondition env c s :
  preconditionFails c s →
  let s' := (handleAddBeat env c s).2 in
  requests (world s') = requests (world s)
  ∧ storage (world s') = storage (world s)
  ∧ beats (world s') = beats (world s)
  ∧ alerts (world s') = alerts (world s) ++ [rejection s]
  ∧ console (world s') = console (world s)
  ∧ comp s' = comp s.
Proof.
  intros Hpre. unfold handleAddBeat, rejection.
  destruct (currentUser (world s)) as [u|] eqn:Hu; [|done].
  destruct (audioFile c) as [f|] eqn:Hf; [|done].
  destruct (truthyOpt (title (newBeat c)) && truthyOpt (genre (newBeat c))
            && truthyOpt (producerName (newBeat c))) eqn:Hg; [|done].
  apply andb_true_iff in Hg as [[Ht Hgn]%andb_true_iff Hp].
  destruct Hpre as [?|[?|[?|[?|?]]]]; congruence.
Qed.

Lemma handleAddBeat_precondition_witness :
  preconditionFails
    (mkComponent emptyBeat (Some (mkFile (lit "a.mp3") [])) None None false)
    (mkSys (mkComponent emptyBeat (Some (mkFile (lit "a.mp3") [])) None None false)
           (mkWorld (Some (mkUser (lit "u7"))) ∅ ∅ [] [] [] 0))
  ∧ requests (world (handleAddBeat
       (mkEnv (λ _, true) (λ _, lit "b1") (λ p, p) (λ _, 0%N) (λ x, x))
       (mkComponent emptyBeat (Some (mkFile (lit "a.mp3") [])) None None false)
       (mkSys (mkComponent emptyBeat (Some (mkFile (lit "a.mp3") [])) None None false)
              (mkWorld (Some (mkUser (lit "u7"))) ∅ ∅ [] [] [] 0))).2) = [].
Proof.
  assert (H : preconditionFails
    (mkComponent emptyBeat (Some (mkFile (lit "a.mp3") [])) None None false)
    (mkSys (mkComponent emptyBeat (Some (mkFile (lit "a.mp3") [])) None None false)
           (mkWorld (Some (mkUser (lit "u7"))) ∅ ∅ [] [] [] 0)))
    by (right; right; left; reflexivity).
  split; [exact H|].
  apply (handleAddBeat_precondition
           (mkEnv (λ _, true) (λ _, lit "b1") (λ p, p) (λ _, 0%N) (λ x, x)) _ _ H).
Defined.

Lemma bind_isOk {S E A B} (m : M S E A) (k : A → M S E B) (x : S) :
  isOk (m x).1 = true → (∀ a y, isOk (k a y).1 = true) →
  isOk (bind m k x).1 = true.
Proof.
  intros Hm Hk. unfold bind. destruct (m x) as [[a|e] y]; [apply Hk|done].
Qed.

Lemma uploader_handlers_fulfilled env c s (confirmed : bool) (k : JsString) :
  isOk (handleAddBeat env c s).1 = true
  ∧ isOk (handleDeleteBeat env confirmed k s).1 = true.
Proof.
  split.
  - unfold handleAddBeat.
    destruct (currentUser (world s)); [|done].
    destruct (audioFile c); [|done]. destruct (_ && _); [|done].
    apply bind_isOk; [done|intros _ y].
    apply bind_isOk; [|done]. by apply tryCatch_isOk.
  - unfold handleDeleteBeat. destruct (negb confirmed); [done|].
    by apply tryCatch_isOk.
Qed.

(** *** The document a run creates *)

Lemma filterBoolean_Some (l : list JsString) :
  filterBoolean (map Some l) = filter (λ x, x ≠ []) l.
Proof.
  induction l as [|x l IH]; [done|].
  unfold filterBoolean in *. cbn [map omap list_omap].
  destruct x as [|a x].
  - rewrite filter_cons_False by auto. simpl. apply IH.
  - rewrite filter_cons_True by done. simpl. f_equal. apply IH.
Qed.

Lemma keywords_lowered env b (t g p : JsString) :
  title b = Some t → genre b = Some g → producerName b = Some p →
  keywords env b
  = loweredKeywords (toLowerCase env) t g p (default [] (tags b)).
Proof.
  intros Ht Hg Hp. unfold keywords, loweredKeywords.
  rewrite Ht, Hg, Hp, <- filterBoolean_Some. f_equal.
  cbn [fmap option_fmap option_map map app]. do 3 f_equal.
  destruct (tags b) as [ts|]; simpl; [|done].
  by rewrite map_map.
Qed.

Lemma keepsBeats_ret {A} (a : A) : keepsBeats (ret a).
Proof. by intros s. Qed.

Lemma keepsBeats_bind {A B} (m : M Sys Error A) (k : A → M Sys Error B) :
  keepsBeats m → (∀ a, keepsBeats (k a)) → keepsBeats (bind m k).
Proof.
  intros Hm Hk s. unfold bind. specialize (Hm s).
  destruct (m s) as [[a|e] s1]; simpl in *; [|done].
  by rewrite Hk.
Qed.

Lemma keepsBeats_tryCatch {A} (m : M Sys Error A) (h : Error → M Sys Error A) :
  keepsBeats m → (∀ e, keepsBeats (h e)) → keepsBeats (tryCatch m h).
Proof.
  intros Hm Hh s. unfold tryCatch. specialize (Hm s).
  destruct (m s) as [[a|e] s1]; simpl in *; [done|].
  by rewrite Hh.
Qed.

Lemma keepsBeats_modify (f : Sys → Sys) :
  (∀ s, beats (world (f s)) = beats (world s)) → keepsBeats (modify f).
Proof. intros Hf s. apply Hf. Qed.

Lemma keepsBeats_request {A} env r (answer : Sys → A) (apply : Sys → Sys) :
  (∀ s, beats (world (apply s)) = beats (world s)) →
  keepsBeats (request env r answer apply).
Proof.
  intros Ha s. unfold request. destruct (accepts env r); simpl; [|done].
  by rewrite Ha.
Qed.

Lemma keepsBeats_uploadFile env f path : keepsBeats (uploadFile env f path).
Proof.
  apply keepsBeats_bind; [|intros _]; by apply keepsBeats_request.
Qed.

Lemma keepsBeats_currentUid : keepsBeats currentUid.
Proof. intros s. unfold currentUid. by destruct (currentUser (world s)). Qed.

Lemma keepsBeats_beatPath env suffix : keepsBeats (beatPath env suffix).
Proof.
  apply keepsBeats_bind; [apply keepsBeats_currentUid|intros u].
  apply keepsBeats_bind; [by intros s|intros t]. apply keepsBeats_ret.
Qed.

Lemma createsAtMost_keeps env c {A} (m : M Sys Error A) :
  keepsBeats m → createsAtMost env c m.
Proof. intros Hm s. left. apply Hm. Qed.

Lemma createsAtMost_bind env c {A B} (m : M Sys Error A) (k : A → M Sys Error B) :
  keepsBeats m → (∀ a, createsAtMost env c (k a)) →
  createsAtMost env c (bind m k).
Proof.
  intros Hm Hk s. unfold bind. specialize (Hm s).
  destruct (m s) as [[a|e] s1]; simpl in *; [|by left].
  rewrite <- Hm. apply Hk.
Qed.

Lemma createsAtMost_then env c {A B} (m : M Sys Error A) (k : A → M Sys Error B) :
  createsAtMost env c m → (∀ a, keepsBeats (k a)) →
  createsAtMost env c (bind m k).
Proof.
  intros Hm Hk s. unfold bind. specialize (Hm s).
  destruct (m s) as [[a|e] s1]; simpl in *; [|done].
  by setoid_rewrite (Hk a s1).
Qed.

Lemma createsAtMost_tryCatch env c {A} (m : M Sys Error A) (h : Error → M Sys Error A) :
  createsAtMost env c m → (∀ e, keepsBeats (h e)) →
  createsAtMost env c (tryCatch m h).
Proof.
  intros Hm Hh s. unfold tryCatch. specialize (Hm s).
  destruct (m s) as [[a|e] s1]; simpl in *; [done|].
  by setoid_rewrite (Hh e s1).
Qed.

(** The two writes of [handleAddBeat] to the collection. *)
Lemma createsAtMost_writes env c u a p i :
  createsAtMost env c
    (docRef <~ addDoc env (beatDocument (newBeat c) u a p i
                             (keywords env (newBeat c))) ;
     updateDoc env docRef docRef).
Proof.
  intros s. unfold bind, addDoc, updateDoc, request.
  destruct (accepts env (AddDoc _)); simpl; [|by left].
  right. exists u, a, p, i. rewrite lookup_insert_eq.
  destruct (accepts env (UpdateDoc _ _)); simpl.
  - eexists. by rewrite insert_insert_eq.
  - by eexists.
Qed.

Lemma keepsBeats_reset :
  keepsBeats (_ <~ setNewBeat emptyBeat ; _ <~ setAudioFile None ;
              _ <~ setPreviewFile None ; setImageFile None).
Proof. by intros s. Qed.

Lemma createsAtMost_body env c audio :
  createsAtMost env c (addBeatBody env c audio).
Proof.
  unfold addBeatBody.
  apply createsAtMost_bind; [apply keepsBeats_beatPath|intros audioPath].
  apply createsAtMost_bind; [apply keepsBeats_uploadFile|intros audioUrl].
  apply createsAtMost_bind; [|intros previewUrl].
  { destruct (previewFile c); [|apply keepsBeats_ret].
    apply keepsBeats_bind; [apply keepsBeats_beatPath|intros path].
    apply keepsBeats_uploadFile. }
  apply createsAtMost_bind; [|intros imageUrl].
  { destruct (imageFile c); [|apply keepsBeats_ret].
    apply keepsBeats_bind; [apply keepsBeats_beatPath|intros path].
    apply keepsBeats_uploadFile. }
  apply createsAtMost_bind; [apply keepsBeats_currentUid|intros user].
  intros s.
  pose proof (createsAtMost_then env c _ (λ _ : (), _ <~ setNewBeat emptyBeat ;
                _ <~ setAudioFile None ; _ <~ setPreviewFile None ;
                setImageFile None)
                (createsAtMost_writes env c user audioUrl previewUrl imageUrl)
                (λ _, keepsBeats_reset) s) as H.
  unfold bind in *.
  destruct (addDoc env _ s) as [[k|e] s1]; simpl in *; [|done].
  destruct (updateDoc env k k s1) as [[[]|e] s2]; simpl in *; done.
Qed.

(** The collection after [handleAddBeat] is the one before, or the one
    before with the new document set at the generated id; the latter
    only when the required fields are there. *)
Lemma handleAddBeat_beats env c s :
  let s' := (handleAddBeat env c s).2 in
  beats (world s') = beats (world s)
  ∨ ∃ u a p i o,
      truthyOpt (title (newBeat c)) = true
      ∧ truthyOpt (genre (newBeat c)) = true
      ∧ truthyOpt (producerName (newBeat c)) = true
      ∧ beats (world s')
        = <[autoId env (beats (world s))
            := mkBeatDoc (beatDocument (newBeat c) u a p i
                            (keywords env (newBeat c))) o]> (beats (world s)).
Proof.
  unfold handleAddBeat.
  destruct (currentUser (world s)) as [u|] eqn:Hu; [|by left].
  destruct (audioFile c) as [f|] eqn:Hf; [|by left].
  destruct (truthyOpt (title (newBeat c)) && truthyOpt (genre (newBeat c))
            && truthyOpt (producerName (newBeat c))) eqn:Hg; [|by left].
  apply andb_true_iff in Hg as [[Ht Hgn]%andb_true_iff Hp].
  assert (H : createsAtMost env c
    (_ <~ setLoading true ;
     _ <~ tryCatch (addBeatBody env c f)
            (λ error, _ <~ consoleError "Error adding beat: " error ;
                      alert "Failed to add beat") ;
     setLoading false)).
  { apply createsAtMost_bind; [by intros s0|intros _].
    apply createsAtMost_then; [|by intros _ s0].
    apply createsAtMost_tryCatch; [apply createsAtMost_body|].
    by intros e s0. }
  destruct (H s) as [H1|(u' & a & p & i & o & H1)]; [by left|].
  right. exists u', a, p, i, o. done.
Qed.

Lemma truthyOpt_Some (o : option JsString) :
  truthyOpt o = true → ∃ x, o = Some x ∧ x ≠ [].
Proof. destruct o as [[|a x]|]; simpl; try done. by eexists. Qed.

(** C10. A document that [handleAddBeat] adds to the collection has
    [plays], [purchases], [likes] and [duration] equal to 0, whatever
    the form held for them, and its [searchKeywords] are the lowercased
    title, genre, producer name and tags of the form, in this order,
    without the empty strings. *)
Theorem handleAddBeat_created env c s (k : JsString) (d : BeatDoc) :
  beats (world s) !! k = None →
  beats (world (handleAddBeat env c s).2) !! k = Some d →
  plays (beat d) = Some zero
  ∧ purchases (beat d) = Some zero
  ∧ likes (beat d) = Some zero
  ∧ duration (beat d) = Some zero
  ∧ ∃ t g p,
      title (newBeat c) = Some t ∧ genre (newBeat c) = Some g
      ∧ producerName (newBeat c) = Some p
      ∧ searchKeywords (beat d)
        = Some (loweredKeywords (toLowerCase env) t g p
                  (default [] (tags (newBeat c)))).
Proof.
  intros Hnew Hk.
  destruct (handleAddBeat_beats env c s)
    as [H|(u & a & p & i & o & Ht & Hg & Hp & H)];
    rewrite H in Hk; [congruence|].
  destruct (decide (autoId env (beats (world s)) = k)) as [<-|Hne];
    [|rewrite lookup_insert_ne in Hk by done; congruence].
  rewrite lookup_insert_eq in Hk. injection Hk as <-. simpl.
  repeat split.
  apply truthyOpt_Some in Ht as (t & Ht & _).
  apply truthyOpt_Some in Hg as (g & Hg & _).
  apply truthyOpt_Some in Hp as (pn & Hp & _).
  exists t, g, pn. repeat split; try done.
  f_equal. by apply keywords_lowered.
Qed.

Lemma handleAddBeat_created_witness :
  beats (world sampleSys) !! lit "b1" = None
  ∧ beats (world (handleAddBeat sampleEnv sampleForm sampleSys).2) !! lit "b1"
    = Some sampleDoc
  ∧ plays (beat sampleDoc) = Some zero
  ∧ searchKeywords (beat sampleDoc)
    = Some [lit "night ride"; lit "trap"; lit "dj gio"; lit "dark"; lit "808"].
Proof.
  assert (H1 : beats (world sampleSys) !! lit "b1" = None) by reflexivity.
  assert (H2 : beats (world (handleAddBeat sampleEnv sampleForm sampleSys).2)
               !! lit "b1" = Some sampleDoc) by (vm_compute; reflexivity).
  split; [exact H1|]. split; [exact H2|].
  destruct (handleAddBeat_created sampleEnv sampleForm sampleSys
              (lit "b1") sampleDoc H1 H2) as (Hplays & _).
  split; [exact Hplays|reflexivity].
Defined.

End LibraryFacts.

(** ** More on the phone-number panel *)

Section SettingsMore.

Import Settings.

Implicit Types (m : gmap JsString Doc.t) (s : Sys) (be : Backend)
  (k t : JsString) (d : Doc.t) (p : PhoneNumber).

(** *** Removing *)

Lemma remove_run be (pid pnumber : JsString) s :
  truthy pid = true →
  let s' := remove be pid pnumber s in
  issued (world s') = issued (world s) ++ [DeleteDoc pid]
  ∧ if accepts be (DeleteDoc pid)
    then db (world s') = delete pid (db (world s))
         ∧ console (world s') = console (world s)
         ∧ deleteDialog (comp s') = mkDeleteDialog false None []
    else db (world s') = db (world s)
         ∧ console (world s')
           = console (world s)
             ++ [(lit "Error deleting phone number:", Rejected (DeleteDoc pid))]
         ∧ deleteDialog (comp s') = mkDeleteDialog true (Some pid) pnumber.
Proof.
  intros Hpid. destruct pid as [|a pid]; [done|].
  unfold remove, dispatch, handleDeletePhoneNumber. simpl.
  unfold tryCatch, bind, deleteDoc. by destruct (accepts be _).
Qed.

(** X1. A removal the store accepts deletes the document of that id and
    nothing else, logs nothing and closes the dialog; the panel then
    shows the collection without it. *)
Theorem remove_accepted be (pid pnumber : JsString) s :
  truthy pid = true → accepts be (DeleteDoc pid) = true →
  let s' := remove be pid pnumber s in
  db (world s') !! pid = None
  ∧ (∀ k, k ≠ pid → db (world s') !! k = db (world s) !! k)
  ∧ issued (world s') = issued (world s) ++ [DeleteDoc pid]
  ∧ reported s s' = false
  ∧ isOpen (deleteDialog (comp s')) = false
  ∧ (∀ p, p ∈ phoneNumbers (comp s') ↔ p ∈ snapshot (db (world s)) ∧ id p ≠ pid).
Proof.
  intros Hpid Hacc s'.
  destruct (remove_run be pid pnumber s Hpid) as (Hi & Hrun).
  rewrite Hacc in Hrun. destruct Hrun as (Hdb & Hco & Hdlg).
  fold s' in Hi, Hdb, Hco, Hdlg.
  split; [rewrite Hdb; apply lookup_delete_eq|].
  split; [intros k Hne; rewrite Hdb; by apply lookup_delete_ne|].
  split; [done|]. split; [unfold reported; rewrite Hco; apply Nat.ltb_irrefl|].
  split; [by rewrite Hdlg|].
  intros p. change (phoneNumbers (comp s')) with (snapshot (db (world s'))).
  rewrite !elem_of_snapshot, Hdb, lookup_delete_Some.
  split; intros [? ?]; split; auto.
Qed.

Lemma remove_accepted_witness :
  truthy (lit "1") = true
  ∧ accepts (reliable fixedId) (DeleteDoc (lit "1")) = true
  ∧ db (world (remove (reliable fixedId) (lit "1") (lit "0788")
                 (mount (phones12 (lit "0788") (lit "0722") true false))))
      !! lit "1" = None.
Proof.
  split; [reflexivity|]. split; [reflexivity|].
  apply (remove_accepted (reliable fixedId) (lit "1") (lit "0788")
           (mount (phones12 (lit "0788") (lit "0722") true false)));
    reflexivity.
Defined.

(** X2. A removal the store refuses changes no document, logs the
    error, and leaves the dialog open on the same phone. *)
Theorem remove_rejected be (pid pnumber : JsString) s :
  truthy pid = true → accepts be (DeleteDoc pid) = false →
  let s' := remove be pid pnumber s in
  db (world s') = db (world s)
  ∧ reported s s' = true
  ∧ deleteDialog (comp s') = mkDeleteDialog true (Some pid) pnumber
  ∧ phoneNumbers (comp s') = snapshot (db (world s)).
Proof.
  intros Hpid Hacc s'.
  destruct (remove_run be pid pnumber s Hpid) as (Hi & Hrun).
  rewrite Hacc in Hrun. destruct Hrun as (Hdb & Hco & Hdlg).
  fold s' in Hi, Hdb, Hco, Hdlg.
  split; [done|]. split; [|split; [done|]].
  - unfold reported. rewrite Hco, length_app. simpl. apply Nat.ltb_lt. lia.
  - change (phoneNumbers (comp s')) with (snapshot (db (world s'))).
    by rewrite Hdb.
Qed.

Lemma remove_rejected_witness :
  truthy (lit "1") = true
  ∧ accepts (mkBackend (λ _, false) fixedId) (DeleteDoc (lit "1")) = false
  ∧ db (world (remove (mkBackend (λ _, false) fixedId) (lit "1") (lit "0788")
                 (mount (phones12 (lit "0788") (lit "0722") true false))))
    = db (world (mount (phones12 (lit "0788") (lit "0722") true false))).
Proof.
  split; [reflexivity|]. split; [reflexivity|].
  apply (remove_rejected (mkBackend (λ _, false) fixedId) (lit "1") (lit "0788")
           (mount (phones12 (lit "0788") (lit "0722") true false)));
    reflexivity.
Defined.

(** X3. Cancel cancels: opening the dialog for a phone and closing it
    again sends nothing, and a click on Delete after that does nothing. *)
Theorem cancelled_delete be (pid pnumber : JsString) s :
  let s1 := (handleOpenDeleteDialog pid pnumber s).2 in
  let s2 := (handleCloseDeleteDialog s1).2 in
  deleteDialog (comp s1) = mkDeleteDialog true (Some pid) pnumber
  ∧ world s1 = world s
  ∧ deleteDialog (comp s2) = mkDeleteDialog false None []
  ∧ world s2 = world s
  ∧ (handleDeletePhoneNumber be (comp s2) s2).2 = s2.
Proof. done. Qed.

(** X4. Once a removal was accepted, removing the same id again changes
    nothing in the collection, whatever the store answers: deleting a
    document that is not there is not an error. *)
Theorem remove_again be be' (pid pnumber pnumber' : JsString) s :
  truthy pid = true → accepts be (DeleteDoc pid) = true →
  let s1 := remove be pid pnumber s in
  let s2 := remove be' pid pnumber' s1 in
  db (world s2) = db (world s1)
  ∧ (accepts be' (DeleteDoc pid) = true → reported s1 s2 = false).
Proof.
  intros Hpid Hacc s1 s2. unfold s2, s1. rewrite !remove_db, Hpid, Hacc.
  cbn [andb]. split.
  - destruct (accepts be' _); [|done]. apply delete_id, lookup_delete_eq.
  - intros Hacc'.
    destruct (remove_run be' pid pnumber' (remove be pid pnumber s) Hpid)
      as (_ & Hrun).
    rewrite Hacc' in Hrun. destruct Hrun as (_ & Hco & _).
    unfold reported. rewrite Hco. apply Nat.ltb_irrefl.
Qed.

Lemma remove_again_witness :
  truthy (lit "1") = true
  ∧ db (world (remove (reliable fixedId) (lit "1") (lit "0788")
         (remove (reliable fixedId) (lit "1") (lit "0788")
            (mount (phones12 (lit "0788") (lit "0722") true false)))))
    = db (world (remove (reliable fixedId) (lit "1") (lit "0788")
            (mount (phones12 (lit "0788") (lit "0722") true false)))).
Proof.
  split; [reflexivity|].
  apply (remove_again (reliable fixedId) (reliable fixedId) (lit "1")
           (lit "0788") (lit "0788")
           (mount (phones12 (lit "0788") (lit "0722") true false)));
    reflexivity.
Defined.

(** X5. Adding a phone and removing it again gives back the collection
    as it was: the new document is stored under an id not in use, and
    the removal deletes that document only. *)
Theorem add_then_remove be be' (v pnumber : JsString) s :
  blank v = false →
  accepts be (AddDoc (created v)) = true →
  db (world s) !! autoId be (db (world s)) = None →
  truthy (autoId be (db (world s))) = true →
  accepts be' (DeleteDoc (autoId be (db (world s)))) = true →
  db (world (remove be' (autoId be (db (world s))) pnumber (add be v s)))
  = db (world s).
Proof.
  intros Hb Hacc Hfresh Hid Hdel.
  rewrite remove_db, Hid, Hdel. cbn [andb].
  destruct (add_accepted be v s Hb Hacc) as (-> & _).
  rewrite delete_insert_eq. by apply delete_id.
Qed.

Lemma add_then_remove_witness :
  blank (lit "0755") = false
  ∧ db (world (mount (phones12 (lit "0788") (lit "0722") true false)))
      !! lit "new" = None
  ∧ db (world (remove (reliable fixedId) (lit "new") (lit "0755")
         (add (reliable fixedId) (lit "0755")
            (mount (phones12 (lit "0788") (lit "0722") true false)))))
    = phones12 (lit "0788") (lit "0722") true false.
Proof.
  split; [reflexivity|]. split; [reflexivity|].
  apply (add_then_remove (reliable fixedId) (reliable fixedId) (lit "0755")
           (lit "0755") (mount (phones12 (lit "0788") (lit "0722") true false)));
    reflexivity.
Defined.

(** X6. Removing the active phone promotes no other one: when at most
    one phone was active and the removed one was it, no phone is active
    afterwards. *)
Theorem remove_active_leaves_none be (pid pnumber : JsString) s d :
  truthy pid = true → accepts be (DeleteDoc pid) = true →
  db (world s) !! pid = Some d → Doc.isActive d = true →
  atMostOneActive (db (world s)) →
  actives (db (world (remove be pid pnumber s))) = [].
Proof.
  intros Hpid Hacc Hd Ha Hinv. rewrite remove_db, Hpid, Hacc. cbn [andb].
  unfold atMostOneActive in Hinv.
  rewrite (actives_delete _ _ _ Hd), Ha in Hinv. simpl in Hinv.
  destruct (actives (delete pid (db (world s)))); [done|simpl in Hinv; lia].
Qed.

Lemma remove_active_leaves_none_witness :
  truthy (lit "1") = true
  ∧ atMostOneActive (phones12 (lit "0788") (lit "0722") true false)
  ∧ actives (db (world (remove (reliable fixedId) (lit "1") (lit "0788")
       (mount (phones12 (lit "0788") (lit "0722") true false))))) = [].
Proof.
  assert (H : atMostOneActive (phones12 (lit "0788") (lit "0722") true false))
    by (vm_compute; lia).
  split; [reflexivity|]. split; [exact H|].
  apply (remove_active_leaves_none (reliable fixedId) (lit "1") (lit "0788")
           (mount (phones12 (lit "0788") (lit "0722") true false))
           (Doc.mk (lit "0788") true));
    [reflexivity | reflexivity | reflexivity | reflexivity | exact H].
Defined.

(** *** Adding *)

(** X7. An [add] the store refuses changes no document, logs the error
    and keeps what was typed in the input, so that it can be sent
    again. *)
Theorem add_refused be (v : JsString) s :
  blank v = false → accepts be (AddDoc (created v)) = false →
  let s' := add be v s in
  db (world s') = db (world s)
  ∧ reported s s' = true
  ∧ newPhoneNumber (comp s') = v
  ∧ phoneNumbers (comp s') = snapshot (db (world s)).
Proof.
  intros Hb Hacc s'.
  destruct (add_rejected be v s Hb Hacc) as (Hdb & _ & Hr & Hn).
  fold s' in Hdb, Hr, Hn. repeat split; try done.
  change (phoneNumbers (comp s')) with (snapshot (db (world s'))).
  by rewrite Hdb.
Qed.

Lemma add_refused_witness :
  blank (lit "0755") = false
  ∧ newPhoneNumber (comp (add (mkBackend (λ _, false) fixedId) (lit "0755")
       (mount (phones12 (lit "0788") (lit "0722") true false)))) = lit "0755".
Proof.
  split; [reflexivity|].
  apply (add_refused (mkBackend (λ _, false) fixedId) (lit "0755")
           (mount (phones12 (lit "0788") (lit "0722") true false)));
    reflexivity.
Defined.

(** X8. The number an [add] stores is never empty and neither starts
    nor ends with white space: it is the typed value without the blank
    stretch before it and the one after it. *)
Theorem add_stores_trimmed be (v : JsString) s :
  blank v = false → accepts be (AddDoc (created v)) = true →
  ∃ n l r,
    db (world (add be v s)) !! autoId be (db (world s)) = Some (Doc.mk n false)
    ∧ v = l ++ n ++ r ∧ blank l = true ∧ blank r = true
    ∧ n ≠ []
    ∧ (∀ c, head n = Some c → isWhiteSpace c = false)
    ∧ (∀ c, last n = Some c → isWhiteSpace c = false).
Proof.
  intros Hb Hacc.
  destruct (add_accepted be v s Hb Hacc) as (Hdb & _).
  destruct (trim_spec v) as (l & r & Hv & Hl & Hr & Hh & Hlast).
  exists (trim v), l, r. rewrite Hdb, lookup_insert_eq.
  repeat split; try done.
  intros Hnil. apply trim_nil_iff in Hnil. congruence.
Qed.

Lemma add_stores_trimmed_witness :
  blank (lit "  07 88 ") = false
  ∧ ∃ n l r,
      db (world (add (reliable fixedId) (lit "  07 88 ")
                   (mount (phones12 (lit "0788") (lit "0722") true false))))
        !! lit "new" = Some (Doc.mk n false)
      ∧ lit "  07 88 " = l ++ n ++ r ∧ blank l = true ∧ blank r = true
      ∧ n ≠ []
      ∧ (∀ c, head n = Some c → isWhiteSpace c = false)
      ∧ (∀ c, last n = Some c → isWhiteSpace c = false).
Proof.
  split; [reflexivity|].
  apply (add_stores_trimmed (reliable fixedId) (lit "  07 88 ")
           (mount (phones12 (lit "0788") (lit "0722") true false)));
    reflexivity.
Defined.

(** *** Activating *)



(** X10. The last activation wins: after two activations without
    failure, the second one of a phone of the collection, the second
    target is the one active phone and the first target plays no part
    in the result. *)
Theorem activate_last_wins be1 be2 (t1 t2 : JsString) s d :
  synced s → db (world s) !! t2 = Some d →
  reported s (activate be1 t1 s) = false →
  reported (activate be1 t1 s) (activate be2 t2 (activate be1 t1 s)) = false →
  (∀ k, db (world (activate be2 t2 (activate be1 t1 s))) !! k
        = setActive (bool_decide (k = t2)) <$> db (world s) !! k)
  ∧ actives (db (world (activate be2 t2 (activate be1 t1 s))))
    = [mkPhoneNumber t2 (Doc.number d) true].
Proof.
  intros Hs Ht2 Hq1 Hq2.
  assert (Hs1 : synced (activate be1 t1 s)) by apply dispatch_synced.
  assert (Hl : ∀ k, db (world (activate be2 t2 (activate be1 t1 s))) !! k
                    = setActive (bool_decide (k = t2)) <$> db (world s) !! k).
  { intros k. rewrite activate_quiet_lookup by done.
    rewrite activate_quiet_lookup by done.
    by destruct (db (world s) !! k). }
  split; [done|].
  apply (actives_sole _ t2 (setActive true d)); [|done|].
  - rewrite Hl, Ht2. simpl. by rewrite bool_decide_eq_true_2.
  - intros k d' Hne H. rewrite Hl in H.
    destruct (db (world s) !! k); [|done]. simpl in H. injection H as <-.
    simpl. by apply bool_decide_eq_false_2.
Qed.

Lemma activate_last_wins_witness :
  synced (mount (phones12 (lit "0788") (lit "0722") false false))
  ∧ actives (db (world (activate (reliable fixedId) (lit "2")
       (activate (reliable fixedId) (lit "1")
          (mount (phones12 (lit "0788") (lit "0722") false false))))))
    = [mkPhoneNumber (lit "2") (lit "0722") true].
Proof.
  split; [reflexivity|].
  apply (activate_last_wins (reliable fixedId) (reliable fixedId)
           (lit "1") (lit "2")
           (mount (phones12 (lit "0788") (lit "0722") false false))
           (Doc.mk (lit "0722") false));
    [reflexivity | reflexivity
     | vm_compute; reflexivity | vm_compute; reflexivity].
Defined.

Lemma actives_two m (k1 k2 : JsString) d1 d2 :
  k1 ≠ k2 → m !! k1 = Some d1 → m !! k2 = Some d2 →
  Doc.isActive d1 = true → Doc.isActive d2 = true →
  2 ≤ length (actives m).
Proof.
  intros Hne H1 H2 Ha1 Ha2.
  rewrite (actives_delete m k1 d1 H1), Ha1.
  rewrite (actives_delete (delete k1 m) k2 d2), Ha2; [simpl; lia|].
  by rewrite lookup_delete_ne.
Qed.

(** X11. A refused deactivation breaks "at most one active": when the
    store refuses to turn the active phone off but accepts to turn the
    target on, a failure is logged and both phones end active. *)
Theorem activate_half_done be (a t : JsString) s da dt :
  synced s → a ≠ t →
  db (world s) !! a = Some da → Doc.isActive da = true →
  db (world s) !! t = Some dt →
  accepts be (UpdateDoc a false) = false →
  accepts be (UpdateDoc t true) = true →
  reported s (activate be t s) = true
  ∧ db (world (activate be t s)) !! a = Some da
  ∧ db (world (activate be t s)) !! t = Some (setActive true dt)
  ∧ 2 ≤ length (actives (db (world (activate be t s)))).
Proof.
  intros Hs Hne Ha Hact Ht Hrej Hacc.
  assert (Ha' : db (world (activate be t s)) !! a = Some da).
  { rewrite activate_lookup, Ha by done. simpl. unfold afterToggle.
    by rewrite (bool_decide_eq_false_2 (a = t)), Hrej, andb_false_r. }
  assert (Ht' : db (world (activate be t s)) !! t = Some (setActive true dt)).
  { rewrite activate_lookup, Ht by done. simpl. unfold afterToggle.
    by rewrite (bool_decide_eq_true_2 (t = t)), Hacc. }
  split; [|split; [done|split; [done|]]].
  - apply not_false_iff_true. intros Hq.
    pose proof (proj1 (activate_quiet_iff be t s Hs) Hq a da Ha) as H.
    rewrite (bool_decide_eq_false_2 (a = t)), Hact, Hrej in H by done.
    by specialize (H eq_refl).
  - by apply (actives_two _ a t da (setActive true dt)).
Qed.

Lemma activate_half_done_witness :
  synced (mount (phones12 (lit "0788") (lit "0722") true false))
  ∧ accepts (refusing (lit "1")) (UpdateDoc (lit "1") false) = false
  ∧ 2 ≤ length (actives (db (world (activate (refusing (lit "1")) (lit "2")
           (mount (phones12 (lit "0788") (lit "0722") true false)))))).
Proof.
  split; [reflexivity|]. split; [reflexivity|].
  apply (activate_half_done (refusing (lit "1")) (lit "1") (lit "2")
           (mount (phones12 (lit "0788") (lit "0722") true false))
           (Doc.mk (lit "0788") true) (Doc.mk (lit "0722") false));
    [reflexivity | discriminate | reflexivity | reflexivity | reflexivity
     | reflexivity | reflexivity].
Defined.

Lemma requests_inactive_rest t (l : list PhoneNumber) :
  (∀ p, p ∈ l → id p ≠ t) →
  length (omap (requestFor t) l) = length (filter (λ q, isActive q = true) l).
Proof.
  induction l as [|p l IH]; intros Hl; [done|].
  cbn [omap list_omap]. rewrite actives_cons.
  unfold requestFor at 1, concerned.
  rewrite (bool_decide_eq_false_2 (id p = t)) by (apply Hl; left).
  cbn [orb].
  assert (IH' := IH (λ q Hq, Hl q (list_elem_of_further _ _ _ Hq))).
  destruct (isActive p); simpl; by rewrite IH'.
Qed.

(** X12. On a panel that shows the collection, an activation sends one
    update for every active phone other than the target, and one more
    when the target is in the collection: never more than the number of
    active phones plus one. *)
Theorem activate_request_count be t s :
  synced s →
  ∃ ws, issued (world (activate be t s)) = issued (world s) ++ ws
        ∧ length ws
          = (match db (world s) !! t with Some _ => 1 | None => 0 end)
            + length (actives (delete t (db (world s))))
        ∧ length ws ≤ length (actives (db (world s))) + 1.
Proof.
  intros Hs. exists (omap (requestFor t) (phoneNumbers (comp s))).
  split; [apply activate_issued|]. rewrite Hs.
  assert (Hrest : length (omap (requestFor t) (snapshot (delete t (db (world s)))))
                  = length (actives (delete t (db (world s))))).
  { apply requests_inactive_rest. intros p Hp Heq.
    apply elem_of_snapshot in Hp. rewrite Heq, lookup_delete_eq in Hp. done. }
  pose proof (actives_delete_length (db (world s)) t) as Hle.
  destruct (db (world s) !! t) as [d|] eqn:Ht.
  - assert (Hreq : requestFor t (shown t d) = Some (UpdateDoc t true)).
    { unfold requestFor, concerned. cbn [id shown].
      by rewrite bool_decide_eq_true_2. }
    rewrite (snapshot_delete _ _ _ Ht). cbn [omap list_omap].
    rewrite Hreq. cbn [length]. rewrite Hrest. lia.
  - rewrite (delete_id _ _ Ht) in *. rewrite Hrest. lia.
Qed.

Lemma activate_request_count_witness :
  synced (mount (phones12 (lit "0788") (lit "0722") true false))
  ∧ ∃ ws, issued (world (activate (reliable fixedId) (lit "2")
                (mount (phones12 (lit "0788") (lit "0722") true false))))
          = [] ++ ws
          ∧ length ws = 1 + 1.
Proof.
  split; [reflexivity|].
  destruct (activate_request_count (reliable fixedId) (lit "2")
              (mount (phones12 (lit "0788") (lit "0722") true false)))
    as (ws & Hi & Hlen & _); [reflexivity|].
  exists ws. split; [exact Hi|exact Hlen].
Defined.

(** X13. The result of an activation does not depend on the order of
    the list the panel holds, that is on the order in which the updates
    are sent: two orders of the same phones leave the same collection
    and log a failure in the same cases. *)
Theorem activate_order_irrelevant be (c c' : Component) t s :
  phoneNumbers c ≡ₚ phoneNumbers c' →
  db (world (handleToggleActive be c t s).2)
  = db (world (handleToggleActive be c' t s).2)
  ∧ reported s (handleToggleActive be c t s).2
    = reported s (handleToggleActive be c' t s).2.
Proof.
  intros Hperm.
  destruct (handleToggleActive_run be c t s) as (_ & _ & Hd & Hr).
  destruct (handleToggleActive_run be c' t s) as (_ & _ & Hd' & Hr').
  split.
  - apply map_eq. intros k. rewrite Hd, Hd'. unfold toggled.
    by rewrite (written_Permutation be t _ _ k Hperm).
  - apply eq_true_iff_eq. rewrite <- !not_false_iff_true, Hr, Hr'.
    by rewrite Hperm.
Qed.

Lemma activate_order_irrelevant_witness :
  [mkPhoneNumber (lit "1") (lit "0788") true;
   mkPhoneNumber (lit "2") (lit "0722") false]
  ≡ₚ [mkPhoneNumber (lit "2") (lit "0722") false;
      mkPhoneNumber (lit "1") (lit "0788") true]
  ∧ db (world (handleToggleActive (reliable fixedId)
         (mkComponent [mkPhoneNumber (lit "1") (lit "0788") true;
                       mkPhoneNumber (lit "2") (lit "0722") false] []
            (mkDeleteDialog false None []))
         (lit "2") (mount (phones12 (lit "0788") (lit "0722") true false))).2)
    = db (world (handleToggleActive (reliable fixedId)
         (mkComponent [mkPhoneNumber (lit "2") (lit "0722") false;
                       mkPhoneNumber (lit "1") (lit "0788") true] []
            (mkDeleteDialog false None []))
         (lit "2") (mount (phones12 (lit "0788") (lit "0722") true false))).2).
Proof.
  assert (H : [mkPhoneNumber (lit "1") (lit "0788") true;
               mkPhoneNumber (lit "2") (lit "0722") false]
              ≡ₚ [mkPhoneNumber (lit "2") (lit "0722") false;
                  mkPhoneNumber (lit "1") (lit "0788") true])
    by apply Permutation_swap.
  split; [exact H|].
  apply (activate_order_irrelevant (reliable fixedId)
           (mkComponent _ [] (mkDeleteDialog false None []))
           (mkComponent _ [] (mkDeleteDialog false None []))
           (lit "2") (mount (phones12 (lit "0788") (lit "0722") true false)) H).
Defined.

End SettingsMore.

(** ** The preference toggles *)

Section PreferencesFacts.

Import Preferences.

Implicit Types (st : gmap JsString Value) (setting : Toggle).

Lemma key_inj setting setting' : key setting = key setting' → setting = setting'.
Proof. by destruct setting, setting'. Qed.

(** X14. Toggling a preference that holds a boolean flips it and
    touches no other property; toggling it twice gives back the
    settings as they were. *)
Theorem handleToggle_flips setting st (b : bool) :
  st !! key setting = Some (VBool b) →
  handleToggle setting st !! key setting = Some (VBool (negb b))
  ∧ (∀ name, name ≠ key setting → handleToggle setting st !! name = st !! name)
  ∧ handleToggle setting (handleToggle setting st) = st.
Proof.
  intros Hb. unfold handleToggle. rewrite lookup_insert_eq, Hb. simpl.
  split; [done|]. split.
  - intros name Hne. by rewrite lookup_insert_ne.
  - rewrite insert_insert_eq, negb_involutive. by apply insert_id.
Qed.

Lemma handleToggle_flips_witness :
  initial !! key darkMode = Some (VBool false)
  ∧ handleToggle darkMode (handleToggle darkMode initial) = initial.
Proof.
  split; [reflexivity|].
  apply (handleToggle_flips darkMode initial false). reflexivity.
Defined.

(** X15. The two toggles do not interfere, and a change of a property
    other than a toggle (the language, the currency) does not interfere
    with them: the updaters commute, and of two changes of one property
    the last one stays. *)
Theorem preferences_compose st :
  (∀ setting setting',
     handleToggle setting (handleToggle setting' st)
     = handleToggle setting' (handleToggle setting st))
  ∧ (∀ setting name value,
       name ≠ key setting →
       handleToggle setting (handleChange name value st)
       = handleChange name value (handleToggle setting st))
  ∧ (∀ name value value',
       handleChange name value' (handleChange name value st)
       = handleChange name value' st).
Proof.
  split; [|split].
  - intros setting setting'.
    destruct (decide (key setting = key setting')) as [->%key_inj|Hk]; [done|].
    unfold handleToggle.
    rewrite !lookup_insert_ne by done. by apply insert_insert_ne.
  - intros setting name value Hne. unfold handleToggle, handleChange.
    rewrite lookup_insert_ne by done. by apply insert_insert_ne.
  - intros name value value'. unfold handleChange. apply insert_insert_eq.
Qed.

Lemma preferences_compose_witness :
  lit "language" ≠ key notifications
  ∧ handleToggle notifications (handleChange (lit "language") (lit "fr") initial)
    = handleChange (lit "language") (lit "fr") (handleToggle notifications initial).
Proof.
  split; [discriminate|].
  apply (proj1 (proj2 (preferences_compose initial))). discriminate.
Defined.

End PreferencesFacts.

(** ** More on the beat uploader *)

Section LibraryMore.

Import Library Form.

Implicit Types (env : Env) (c : Component) (s : Sys) (b : PartialBeat)
  (u : User) (f : File).

(** *** The paths of the uploads *)

Lemma pathOf_suffix env u (n : nat) (suffix : string) :
  pathOf env u n suffix
  = (lit "beats/" ++ uid u ++ lit "/" ++ decimal (now env n)) ++ lit suffix.
Proof. unfold pathOf. by rewrite <- !app_assoc. Qed.

Lemma app_suffix_neq (a a' x x' y y' : JsString) :
  length y = length y' → y ≠ y' → a ++ (x ++ y) ≠ a' ++ (x' ++ y').
Proof.
  intros Hlen Hne H. rewrite !app_assoc in H.
  apply app_inj_2 in H; [|done]. tauto.
Qed.

Lemma pathOf_differ env u u' (n n' : nat) :
  pathOf env u n "-full.mp3" ≠ pathOf env u' n' "-preview.mp3"
  ∧ pathOf env u n "-full.mp3" ≠ pathOf env u' n' "-cover.jpg"
  ∧ pathOf env u n "-preview.mp3" ≠ pathOf env u' n' "-cover.jpg".
Proof.
  rewrite !pathOf_suffix.
  change (lit "-full.mp3") with (lit "-ful" ++ lit "l.mp3").
  change (lit "-preview.mp3") with (lit "-previe" ++ lit "w.mp3").
  change (lit "-cover.jpg") with (lit "-cove" ++ lit "r.jpg").
  repeat split; by apply app_suffix_neq.
Qed.

(** X16. The path of an upload is made of the id of the signed-in user,
    the time read from the clock and an ending; without a signed-in
    user making it throws. The full beat, the preview and the cover are
    stored under three different paths, whoever the user is and whatever
    the clock says: the paths differ in their endings. *)
Theorem upload_paths_differ env s (suffix : string) :
  (∀ u, currentUser (world s) = Some u →
        (beatPath env suffix s).1 = Ok (pathOf env u (ticks (world s)) suffix))
  ∧ (currentUser (world s) = None → (beatPath env suffix s).1 = Throw TypeError)
  ∧ (∀ u u' (n n' : nat),
       pathOf env u n "-full.mp3" ≠ pathOf env u' n' "-preview.mp3"
       ∧ pathOf env u n "-full.mp3" ≠ pathOf env u' n' "-cover.jpg"
       ∧ pathOf env u n "-preview.mp3" ≠ pathOf env u' n' "-cover.jpg").
Proof.
  split; [|split].
  - intros u Hu. unfold beatPath, bind, currentUid. by rewrite Hu.
  - intros Hu. unfold beatPath, bind, currentUid. by rewrite Hu.
  - intros u u' n n'. apply pathOf_differ.
Qed.

Lemma upload_paths_differ_witness :
  currentUser (world sampleSys) = Some (mkUser (lit "u7"))
  ∧ (beatPath sampleEnv "-cover.jpg" sampleSys).1
    = Ok (lit "beats/u7/1700-cover.jpg").
Proof.
  split; [reflexivity|].
  apply (proj1 (upload_paths_differ sampleEnv sampleSys "-cover.jpg")
           (mkUser (lit "u7"))).
  reflexivity.
Defined.

(** *** Running the uploader step by step *)

Ltac run_uploader :=
  cbv beta iota zeta delta
    [handleAddBeat addBeatBody bind ret tryCatch modify beatPath uploadFile
     uploadBytes getDownloadURL request currentUid dateNow addDoc updateDoc
     handleDeleteBeat deleteDoc
     setNewBeat setAudioFile setPreviewFile setImageFile setLoading
     consoleError alert issue setWorld setComp setBeats setStorage
     world comp currentUser beats storage requests alerts console ticks
     newBeat audioFile previewFile imageFile loading fst snd
     Form.dispatch].

Lemma ready_guard c :
  ready c →
  ∃ f, audioFile c = Some f
       ∧ truthyOpt (title (newBeat c)) && truthyOpt (genre (newBeat c))
         && truthyOpt (producerName (newBeat c)) = true.
Proof. intros ([f Hf] & -> & -> & ->). by exists f. Qed.

(** The run in which every request is accepted. *)
Lemma handleAddBeat_accepted env s u f :
  currentUser (world s) = Some u → ready (comp s) →
  audioFile (comp s) = Some f →
  (∀ r, accepts env r = true) →
  let s' := Form.dispatch (handleAddBeat env) s in
  let k := autoId env (beats (world s)) in
  let audio := pathOf env u (ticks (world s)) "-full.mp3" in
  ∃ preview image,
    beats (world s')
    = <[k := mkBeatDoc (beatDocument (newBeat (comp s)) (uid u)
                          (downloadURL env audio) preview image
                          (keywords env (newBeat (comp s)))) (Some k)]>
        (beats (world s))
    ∧ (previewFile (comp s) = None → preview = downloadURL env audio)
    ∧ (imageFile (comp s) = None → image = [])
    ∧ storage (world s') !! audio = Some f
    ∧ comp s' = mkComponent emptyBeat None None None false
    ∧ alerts (world s') = alerts (world s)
    ∧ console (world s') = console (world s).
Proof.
  intros Hu Hready Hf Hacc.
  destruct (ready_guard _ Hready) as (f' & Hf' & Hguard).
  destruct s as [[nb af pf imf ld] [cu bs st rq al co tk]].
  simpl in Hu, Hf, Hf', Hguard. subst cu af. clear Hf' Hready.
  destruct (pathOf_differ env u u tk (S tk)) as (Hp1 & Hc1 & _).
  destruct (pathOf_differ env u u tk (S (S tk))) as (_ & Hc2 & _).
  unfold pathOf in *.
  destruct pf as [pf|], imf as [imf|];
    run_uploader; rewrite Hguard; run_uploader;
    repeat (rewrite Hacc; run_uploader);
    rewrite lookup_insert_eq; run_uploader;
    repeat (rewrite Hacc; run_uploader);
    eexists _, _; (split; [by rewrite insert_insert_eq|]);
    repeat split; try done;
    rewrite ?lookup_insert_ne by (by apply not_eq_sym);
    apply lookup_insert_eq.
Qed.

(** X17. When the form is ready, somebody is signed in and every
    request is accepted, the upload stores one document under the
    generated id, with that id in its field [id], the signed-in user as
    producer and the public URL of the uploaded beat; without a preview
    file the preview URL is the URL of the full beat, without a cover
    the image URL is empty. The beat is in the blob storage, the form is
    emptied, and nothing is alerted or logged. *)
Theorem handleAddBeat_success env s u f :
  currentUser (world s) = Some u → ready (comp s) →
  audioFile (comp s) = Some f →
  (∀ r, accepts env r = true) →
  let s' := Form.dispatch (handleAddBeat env) s in
  let k := autoId env (beats (world s)) in
  let audio := pathOf env u (ticks (world s)) "-full.mp3" in
  ∃ preview image,
    beats (world s')
    = <[k := mkBeatDoc (beatDocument (newBeat (comp s)) (uid u)
                          (downloadURL env audio) preview image
                          (keywords env (newBeat (comp s)))) (Some k)]>
        (beats (world s))
    ∧ (previewFile (comp s) = None → preview = downloadURL env audio)
    ∧ (imageFile (comp s) = None → image = [])
    ∧ storage (world s') !! audio = Some f
    ∧ comp s' = mkComponent emptyBeat None None None false
    ∧ alerts (world s') = alerts (world s)
    ∧ console (world s') = console (world s).
Proof. apply handleAddBeat_accepted. Qed.

Lemma handleAddBeat_success_witness :
  currentUser (world sampleSys) = Some (mkUser (lit "u7"))
  ∧ ready (comp sampleSys)
  ∧ ∃ preview image,
      beats (world (Form.dispatch (handleAddBeat sampleEnv) sampleSys))
      = <[lit "b1" := mkBeatDoc (beatDocument (newBeat sampleForm) (lit "u7")
                         (lit "https://cdn/beats/u7/1700-full.mp3") preview image
                         (keywords sampleEnv (newBeat sampleForm)))
                        (Some (lit "b1"))]> ∅
      ∧ preview = lit "https://cdn/beats/u7/1700-full.mp3"
      ∧ image = [].
Proof.
  assert (Hready : ready (comp sampleSys)).
  { split; [by eexists|]. repeat split. }
  split; [reflexivity|]. split; [exact Hready|].
  destruct (handleAddBeat_success sampleEnv sampleSys (mkUser (lit "u7"))
              (mkFile (lit "ride.mp3") [1; 2; 3]%N)
              eq_refl Hready eq_refl (λ _, eq_refl))
    as (preview & image & Hb & Hp & Hi & _).
  exists preview, image. split; [exact Hb|].
  split; [exact (Hp eq_refl)|exact (Hi eq_refl)].
Defined.

Ltac decide_requests env :=
  repeat match goal with
         | |- context [accepts env ?r] =>
             let H := fresh "Hacc" in
             destruct (accepts env r) eqn:H; run_uploader
         end.

(** X18. When the form is ready and somebody is signed in, a run of the
    upload ends in one of two ways, and with the button enabled again in
    both. Either every request was accepted: the document is stored with
    its id, the form is emptied, nothing is alerted. Or the store or the
    storage refused a request: the user is told "Failed to add beat",
    the error is logged, and the form keeps the fields and the files. *)
Theorem handleAddBeat_outcome env s u :
  currentUser (world s) = Some u → ready (comp s) →
  let s' := Form.dispatch (handleAddBeat env) s in
  loading (comp s') = false
  ∧ ((∃ d, beats (world s') !! autoId env (beats (world s)) = Some d
           ∧ id d = Some (autoId env (beats (world s))))
     ∧ newBeat (comp s') = emptyBeat
     ∧ audioFile (comp s') = None ∧ previewFile (comp s') = None
     ∧ imageFile (comp s') = None
     ∧ alerts (world s') = alerts (world s)
     ∧ console (world s') = console (world s)
     ∨ (∃ r, accepts env r = false
             ∧ console (world s')
               = console (world s) ++ [(lit "Error adding beat: ", Rejected r)])
       ∧ alerts (world s') = alerts (world s) ++ [lit "Failed to add beat"]
       ∧ newBeat (comp s') = newBeat (comp s)
       ∧ audioFile (comp s') = audioFile (comp s)
       ∧ previewFile (comp s') = previewFile (comp s)
       ∧ imageFile (comp s') = imageFile (comp s)).
Proof.
  intros Hu Hready.
  destruct (ready_guard _ Hready) as (f & Hf & Hguard).
  destruct s as [[nb af pf imf ld] [cu bs st rq al co tk]].
  simpl in Hu, Hf, Hguard. subst cu af. clear Hready.
  destruct pf as [pf|], imf as [imf|];
    run_uploader; rewrite Hguard; run_uploader;
    decide_requests env;
    rewrite ?lookup_insert_eq; run_uploader;
    decide_requests env;
    (split; [done|]);
    first [ left; split; [eexists; split; [reflexivity|done]|done]
          | right; split; [eexists; split; [eassumption|done]|done] ].
Qed.

Lemma handleAddBeat_outcome_witness :
  currentUser (world sampleSys) = Some (mkUser (lit "u7"))
  ∧ ready (comp sampleSys)
  ∧ loading (comp (Form.dispatch (handleAddBeat sampleEnv) sampleSys)) = false.
Proof.
  assert (Hready : ready (comp sampleSys)).
  { split; [by eexists|]. repeat split. }
  split; [reflexivity|]. split; [exact Hready|].
  apply (handleAddBeat_outcome sampleEnv sampleSys (mkUser (lit "u7"))
           eq_refl Hready).
Defined.

(** X19. When the storage refuses the beat itself, the run stops there:
    the upload is the only request sent, nothing is stored, no document
    is created, and the user is told that adding the beat failed. *)
Theorem handleAddBeat_upload_refused env s u f :
  currentUser (world s) = Some u → ready (comp s) →
  audioFile (comp s) = Some f →
  accepts env (UploadBytes (pathOf env u (ticks (world s)) "-full.mp3") f) = false →
  let s' := Form.dispatch (handleAddBeat env) s in
  requests (world s')
  = requests (world s)
    ++ [UploadBytes (pathOf env u (ticks (world s)) "-full.mp3") f]
  ∧ storage (world s') = storage (world s)
  ∧ beats (world s') = beats (world s)
  ∧ alerts (world s') = alerts (world s) ++ [lit "Failed to add beat"].
Proof.
  intros Hu Hready Hf Hrej.
  destruct (ready_guard _ Hready) as (f' & Hf' & Hguard).
  destruct s as [[nb af pf imf ld] [cu bs st rq al co tk]].
  simpl in Hu, Hf, Hf', Hguard, Hrej. subst cu af. clear Hf' Hready.
  unfold pathOf in *.
  run_uploader. rewrite Hguard. run_uploader. rewrite Hrej. run_uploader.
  done.
Qed.

(** X20. Files uploaded before a failure are not taken back: when the
    storage accepts everything and the store refuses the document, no
    document is created, the user is told of the failure, and the beat
    stays in the blob storage under its path. *)
Theorem handleAddBeat_orphans env s u f :
  currentUser (world s) = Some u → ready (comp s) →
  audioFile (comp s) = Some f →
  (∀ path file, accepts env (UploadBytes path file) = true) →
  (∀ path, accepts env (GetDownloadURL path) = true) →
  (∀ data, accepts env (AddDoc data) = false) →
  let s' := Form.dispatch (handleAddBeat env) s in
  beats (world s') = beats (world s)
  ∧ storage (world s') !! pathOf env u (ticks (world s)) "-full.mp3" = Some f
  ∧ alerts (world s') = alerts (world s) ++ [lit "Failed to add beat"].
Proof.
  intros Hu Hready Hf Hup Hurl Hdoc.
  destruct (ready_guard _ Hready) as (f' & Hf' & Hguard).
  destruct s as [[nb af pf imf ld] [cu bs st rq al co tk]].
  simpl in Hu, Hf, Hf', Hguard. subst cu af. clear Hf' Hready.
  destruct (pathOf_differ env u u tk (S tk)) as (Hp1 & Hc1 & _).
  destruct (pathOf_differ env u u tk (S (S tk))) as (_ & Hc2 & _).
  unfold pathOf in *.
  destruct pf as [pf|], imf as [imf|];
    run_uploader; rewrite Hguard; run_uploader;
    repeat (first [rewrite Hup | rewrite Hurl | rewrite Hdoc]; run_uploader);
    repeat split; try done;
    rewrite ?lookup_insert_ne by (by apply not_eq_sym);
    apply lookup_insert_eq.
Qed.

(** X21. When everything is accepted but the second write, the one that
    copies the id into the document, the document stays in the
    collection without its field [id]; the user is told that adding the
    beat failed and the form keeps its fields. *)
Theorem handleAddBeat_id_refused env s u :
  currentUser (world s) = Some u → ready (comp s) →
  (∀ path file, accepts env (UploadBytes path file) = true) →
  (∀ path, accepts env (GetDownloadURL path) = true) →
  (∀ data, accepts env (AddDoc data) = true) →
  accepts env (UpdateDoc (autoId env (beats (world s)))
                 (autoId env (beats (world s)))) = false →
  let s' := Form.dispatch (handleAddBeat env) s in
  (∃ d, beats (world s') !! autoId env (beats (world s)) = Some d
        ∧ id d = None ∧ title (beat d) = title (newBeat (comp s)))
  ∧ alerts (world s') = alerts (world s) ++ [lit "Failed to add beat"]
  ∧ newBeat (comp s') = newBeat (comp s)
  ∧ audioFile (comp s') = audioFile (comp s).
Proof.
  intros Hu Hready Hup Hurl Hdoc Hid.
  destruct (ready_guard _ Hready) as (f & Hf & Hguard).
  destruct s as [[nb af pf imf ld] [cu bs st rq al co tk]].
  simpl in Hu, Hf, Hguard, Hid. subst cu af. clear Hready.
  destruct pf as [pf|], imf as [imf|];
    run_uploader; rewrite Hguard; run_uploader;
    repeat (first [rewrite Hup | rewrite Hurl | rewrite Hdoc]; run_uploader);
    rewrite lookup_insert_eq; run_uploader; rewrite Hid; run_uploader;
    (split; [eexists; split; [apply lookup_insert_eq|done]|done]).
Qed.

Lemma sample_ready : ready (comp sampleSys).
Proof. split; [by eexists|]. repeat split. Qed.

Lemma handleAddBeat_upload_refused_witness :
  ready (comp sampleSys)
  ∧ accepts (sampleEnvWith noUploads)
      (UploadBytes (pathOf (sampleEnvWith noUploads) (mkUser (lit "u7"))
                      (ticks (world sampleSys)) "-full.mp3")
         (mkFile (lit "ride.mp3") [1; 2; 3]%N)) = false
  ∧ beats (world (Form.dispatch (handleAddBeat (sampleEnvWith noUploads)) sampleSys))
    = beats (world sampleSys).
Proof.
  split; [exact sample_ready|]. split; [reflexivity|].
  apply (handleAddBeat_upload_refused (sampleEnvWith noUploads) sampleSys
           (mkUser (lit "u7")) (mkFile (lit "ride.mp3") [1; 2; 3]%N)
           eq_refl sample_ready eq_refl eq_refl).
Defined.

Lemma handleAddBeat_orphans_witness :
  ready (comp sampleSys)
  ∧ (∀ data, accepts (sampleEnvWith noDocuments) (AddDoc data) = false)
  ∧ storage (world (Form.dispatch (handleAddBeat (sampleEnvWith noDocuments))
                      sampleSys))
      !! lit "beats/u7/1700-full.mp3"
    = Some (mkFile (lit "ride.mp3") [1; 2; 3]%N).
Proof.
  split; [exact sample_ready|]. split; [reflexivity|].
  apply (handleAddBeat_orphans (sampleEnvWith noDocuments) sampleSys
           (mkUser (lit "u7")) (mkFile (lit "ride.mp3") [1; 2; 3]%N)
           eq_refl sample_ready eq_refl
           (λ _ _, eq_refl) (λ _, eq_refl) (λ _, eq_refl)).
Defined.

Lemma handleAddBeat_id_refused_witness :
  ready (comp sampleSys)
  ∧ accepts (sampleEnvWith noIdWrite) (UpdateDoc (lit "b1") (lit "b1")) = false
  ∧ alerts (world (Form.dispatch (handleAddBeat (sampleEnvWith noIdWrite))
                     sampleSys))
    = [lit "Failed to add beat"].
Proof.
  split; [exact sample_ready|]. split; [reflexivity|].
  apply (handleAddBeat_id_refused (sampleEnvWith noIdWrite) sampleSys
           (mkUser (lit "u7")) eq_refl sample_ready
           (λ _ _, eq_refl) (λ _, eq_refl) (λ _, eq_refl) eq_refl).
Defined.

(** X22. Whatever the services answer, an upload whose document gets an
    id not in use leaves every document of the collection as it was;
    and when the store accepts no document, the collection is unchanged
    altogether. *)
Theorem handleAddBeat_keeps_others env s :
  (beats (world s) !! autoId env (beats (world s)) = None →
   ∀ (k : JsString) d, beats (world s) !! k = Some d →
     beats (world (Form.dispatch (handleAddBeat env) s)) !! k = Some d)
  ∧ ((∀ data, accepts env (AddDoc data) = false) →
     beats (world (Form.dispatch (handleAddBeat env) s)) = beats (world s)).
Proof.
  split.
  - intros Hfresh k d Hk.
    destruct (handleAddBeat_beats env (comp s) s)
      as [H|(u & a & p & i & o & _ & _ & _ & H)];
      unfold Form.dispatch; rewrite H; [done|].
    rewrite lookup_insert_ne; [done|]. congruence.
  - intros Hdoc. unfold Form.dispatch, handleAddBeat.
    destruct (currentUser (world s)); [|done].
    destruct (audioFile (comp s)); [|done]. destruct (_ && _); [|done].
    assert (H : keepsBeats (addBeatBody env (comp s) f)).
    { unfold addBeatBody.
      apply keepsBeats_bind; [apply keepsBeats_beatPath|intros audioPath].
      apply keepsBeats_bind; [apply keepsBeats_uploadFile|intros audioUrl].
      apply keepsBeats_bind; [|intros previewUrl].
      { destruct (previewFile (comp s)); [|apply keepsBeats_ret].
        apply keepsBeats_bind; [apply keepsBeats_beatPath|intros path].
        apply keepsBeats_uploadFile. }
      apply keepsBeats_bind; [|intros imageUrl].
      { destruct (imageFile (comp s)); [|apply keepsBeats_ret].
        apply keepsBeats_bind; [apply keepsBeats_beatPath|intros path].
        apply keepsBeats_uploadFile. }
      apply keepsBeats_bind; [apply keepsBeats_currentUid|intros user].
      intros s0. unfold bind, addDoc, request. by rewrite Hdoc. }
    assert (H' : keepsBeats
      (_ <~ setLoading true ;
       _ <~ tryCatch (addBeatBody env (comp s) f)
              (λ error, _ <~ consoleError "Error adding beat: " error ;
                        alert "Failed to add beat") ;
       setLoading false)).
    { apply keepsBeats_bind; [by intros s0|intros _].
      apply keepsBeats_bind; [|by intros _ s0].
      apply keepsBeats_tryCatch; [done|]. by intros e s0. }
    apply H'.
Qed.

Lemma handleAddBeat_keeps_others_witness :
  (∀ data, accepts (sampleEnvWith noDocuments) (AddDoc data) = false)
  ∧ beats (world (Form.dispatch (handleAddBeat (sampleEnvWith noDocuments))
                    sampleSys))
    = beats (world sampleSys).
Proof.
  split; [reflexivity|].
  apply (proj2 (handleAddBeat_keeps_others (sampleEnvWith noDocuments) sampleSys)).
  reflexivity.
Defined.

(** *** Deleting a beat *)

(** X23. Deleting a beat: when the user does not confirm, nothing
    happens; when the store accepts, the document is deleted and the
    others stay; when it refuses, the collection stays and the user is
    told. In no case is a blob deleted: the files of a deleted beat stay
    in the storage. *)
Theorem handleDeleteBeat_outcome env (confirmed : bool) (k : JsString) s :
  let s' := (handleDeleteBeat env confirmed k s).2 in
  storage (world s') = storage (world s)
  ∧ comp s' = comp s
  ∧ (confirmed = false → s' = s)
  ∧ (confirmed = true → accepts env (DeleteDoc k) = true →
       beats (world s') = delete k (beats (world s))
       ∧ requests (world s') = requests (world s) ++ [DeleteDoc k]
       ∧ alerts (world s') = alerts (world s)
       ∧ console (world s') = console (world s))
  ∧ (confirmed = true → accepts env (DeleteDoc k) = false →
       beats (world s') = beats (world s)
       ∧ alerts (world s') = alerts (world s) ++ [lit "Failed to delete beat"]
       ∧ console (world s')
         = console (world s)
           ++ [(lit "Error deleting beat: ", Rejected (DeleteDoc k))]).
Proof.
  destruct s as [c [cu bs st rq al co tk]].
  destruct confirmed; run_uploader; cbn [negb]; run_uploader;
    [destruct (accepts env (DeleteDoc k)) eqn:Hacc; run_uploader|];
    repeat split; try done.
Qed.

Lemma handleDeleteBeat_outcome_witness :
  accepts sampleEnv (DeleteDoc (lit "b1")) = true
  ∧ beats (world (handleDeleteBeat sampleEnv true (lit "b1")
                    (Form.dispatch (handleAddBeat sampleEnv) sampleSys)).2)
    = delete (lit "b1")
        (beats (world (Form.dispatch (handleAddBeat sampleEnv) sampleSys))).
Proof.
  split; [reflexivity|].
  apply (handleDeleteBeat_outcome sampleEnv true (lit "b1")
           (Form.dispatch (handleAddBeat sampleEnv) sampleSys));
    reflexivity.
Defined.

(** X24. Uploading a beat and deleting it again gives back the
    collection as it was, but not the storage: the uploaded beat is
    still there under its path. *)
Theorem upload_then_delete env s u f :
  currentUser (world s) = Some u → ready (comp s) →
  audioFile (comp s) = Some f →
  (∀ r, accepts env r = true) →
  beats (world s) !! autoId env (beats (world s)) = None →
  let s1 := Form.dispatch (handleAddBeat env) s in
  let s2 := (handleDeleteBeat env true (autoId env (beats (world s))) s1).2 in
  beats (world s2) = beats (world s)
  ∧ storage (world s2) !! pathOf env u (ticks (world s)) "-full.mp3" = Some f.
Proof.
  intros Hu Hready Hf Hacc Hfresh s1 s2.
  destruct (handleAddBeat_accepted env s u f Hu Hready Hf Hacc)
    as (preview & image & Hb & _ & _ & Hst & _).
  fold s1 in Hb, Hst.
  assert (Hs2 : beats (world s2) = delete (autoId env (beats (world s))) (beats (world s1))
                ∧ storage (world s2) = storage (world s1)).
  { unfold s2. destruct s1 as [c1 [cu bs st rq al co tk]].
    run_uploader. cbn [negb]. run_uploader. rewrite Hacc. run_uploader. done. }
  destruct Hs2 as [-> ->]. split; [|done].
  rewrite Hb, delete_insert_eq. by apply delete_id.
Qed.

Lemma upload_then_delete_witness :
  ready (comp sampleSys)
  ∧ beats (world sampleSys) !! autoId sampleEnv (beats (world sampleSys)) = None
  ∧ beats (world (handleDeleteBeat sampleEnv true (lit "b1")
                    (Form.dispatch (handleAddBeat sampleEnv) sampleSys)).2)
    = ∅.
Proof.
  split; [exact sample_ready|]. split; [reflexivity|].
  apply (upload_then_delete sampleEnv sampleSys (mkUser (lit "u7"))
           (mkFile (lit "ride.mp3") [1; 2; 3]%N)
           eq_refl sample_ready eq_refl (λ _, eq_refl) eq_refl).
Defined.

(** *** The tags input *)

Lemma split_cons (a : N) (x : JsString) :
  split (a :: x)
  = if (a =? 44)%N then [] :: split x
    else match split x with
         | piece :: pieces => (a :: piece) :: pieces
         | [] => [[a]]
         end.
Proof. done. Qed.

Lemma split_not_nil (x : JsString) : split x ≠ [].
Proof.
  induction x as [|a x IH]; [done|]. rewrite split_cons.
  destruct (a =? 44)%N; [done|]. by destruct (split x).
Qed.

Lemma split_length (x : JsString) :
  length (split x) = S (length (filter (λ a, a = 44%N) x)).
Proof.
  induction x as [|a x IH]; [done|]. rewrite split_cons, filter_cons.
  destruct (N.eqb_spec a 44) as [->|Hne].
  - rewrite decide_True by done. simpl. by rewrite IH.
  - rewrite decide_False by done. pose proof (split_not_nil x).
    destruct (split x); [done|]. exact IH.
Qed.

Lemma split_no_comma (x : JsString) :
  Forall (λ piece, ¬ (44%N ∈ piece)) (split x).
Proof.
  induction x as [|a x IH]; [repeat constructor; apply not_elem_of_nil|].
  rewrite split_cons. destruct (N.eqb_spec a 44) as [->|Hne].
  - constructor; [apply not_elem_of_nil|done].
  - pose proof (split_not_nil x). destruct (split x) as [|piece pieces]; [done|].
    apply Forall_cons in IH as [Hp Hps]. constructor; [|done].
    rewrite elem_of_cons. intros [?|?]; [congruence|done].
Qed.

Lemma join_split (x : JsString) : join (split x) = x.
Proof.
  induction x as [|a x IH]; [done|]. rewrite split_cons.
  destruct (N.eqb_spec a 44) as [->|Hne].
  - pose proof (split_not_nil x). unfold join in *.
    destruct (split x) as [|piece pieces]; [done|]. simpl in *. by rewrite IH.
  - pose proof (split_not_nil x). unfold join in *.
    destruct (split x) as [|piece pieces]; [done|]. simpl in *. by rewrite IH.
Qed.

Lemma elem_of_trim (a : N) (x : JsString) : a ∈ trim x → a ∈ x.
Proof.
  intros Ha. destruct (trim_spec x) as (l & r & Hx & _).
  rewrite Hx, !elem_of_app. auto.
Qed.

(** X25. Typing into the tags input replaces the tags of the form by
    the pieces between the commas, trimmed: one tag more than there are
    commas, no tag with a comma in it or with white space at either end;
    joining the untrimmed pieces with commas gives back what was typed.
    The other fields of the form and everything outside it stay. *)
Theorem onTagsChange_tags c (value : JsString) s :
  let s' := (onTagsChange c value s).2 in
  tags (newBeat (comp s')) = Some (map trim (split value))
  ∧ join (split value) = value
  ∧ length (map trim (split value)) = S (length (filter (λ a, a = 44%N) value))
  ∧ Forall (λ tag, ¬ (44%N ∈ tag)
                   ∧ (∀ a, head tag = Some a → isWhiteSpace a = false)
                   ∧ (∀ a, last tag = Some a → isWhiteSpace a = false))
           (map trim (split value))
  ∧ title (newBeat (comp s')) = title (newBeat c)
  ∧ genre (newBeat (comp s')) = genre (newBeat c)
  ∧ producerName (newBeat (comp s')) = producerName (newBeat c)
  ∧ audioFile (comp s') = audioFile (comp s)
  ∧ world s' = world s.
Proof.
  split; [done|]. split; [apply join_split|].
  split; [rewrite length_map; apply split_length|].
  split; [|done].
  apply Forall_fmap. eapply Forall_impl; [apply split_no_comma|].
  intros piece Hpiece. simpl. split; [intros H; by apply elem_of_trim in H|].
  destruct (trim_spec piece) as (_ & _ & _ & _ & _ & Hh & Hl). done.
Qed.

(** X26. Tags left blank give no keyword: when the tags input holds
    white space only, the keywords of the beat are those of a beat
    without tags. *)
Theorem blank_tags_no_keyword env b (value : JsString) :
  toLowerCase env [] = [] → blank value = true →
  keywords env (withTags b (map trim (split value)))
  = keywords env (withTags b []).
Proof.
  intros Hlower Hblank.
  assert (Hsplit : split value = [value]).
  { assert (Hno : 44%N ∉ value).
    { intros Hin. unfold blank in Hblank.
      rewrite forallb_forall in Hblank.
      apply list_elem_of_In, Hblank in Hin. done. }
    clear Hblank. induction value as [|a x IH]; [done|].
    rewrite split_cons. destruct (N.eqb_spec a 44) as [->|Hne].
    - exfalso. apply Hno. left.
    - rewrite IH; [done|]. intros Hin. apply Hno. by right. }
  rewrite Hsplit. apply trim_nil_iff in Hblank.
  unfold keywords, filterBoolean. cbn [tags withTags map].
  rewrite Hblank, Hlower, !omap_app. reflexivity.
Qed.

Lemma blank_tags_no_keyword_witness :
  toLowerCase sampleEnv [] = [] ∧ blank (lit "  ") = true
  ∧ keywords sampleEnv (withTags (newBeat sampleForm) (map trim (split (lit "  "))))
    = [lit "night ride"; lit "trap"; lit "dj gio"].
Proof.
  split; [reflexivity|]. split; [reflexivity|].
  rewrite (blank_tags_no_keyword sampleEnv (newBeat sampleForm) (lit "  ")
             eq_refl eq_refl).
  reflexivity.
Defined.

End LibraryMore.
